(** * A verification model of the FastAPI client / invoice / product service

    The program is a single module, [main.py]: four process-wide dictionaries
    ([db_users], [db_clientes], [db_facturas], [db_productos]) and a handful
    of route handlers that read and write them.  The development below embeds
    the handlers as computations in a state-and-exception monad over the four
    dictionaries, and then proves the properties of the specification about
    them. *)

From Stdlib Require Import ZArith NArith Ascii String List Lia.
From stdpp Require Import base decidable option list strings pretty.

Local Open Scope Z_scope.

(** ** Python values *)

(** A Python [str] is a sequence of Unicode code points. *)
Definition codepoint : Type := N.
Definition pystr : Type := list codepoint.

(** [py "..."] is the Python literal with the same ASCII text. *)
Definition py (s : string) : pystr :=
  map N_of_ascii (list_ascii_of_string s).
Arguments py : simpl never.

(** [str(n)] for an [int]: decimal digits, with a leading minus sign for the
    negatives. *)
Definition str_int (n : Z) : pystr := py (pretty n).

(** ['sep'.join(parts)] *)
Fixpoint join (sep : pystr) (parts : list pystr) : pystr :=
  match parts with
  | [] => []
  | [p] => p
  | p :: ps => p ++ sep ++ join sep ps
  end.

(** ** Python dictionaries

    A [dict] keeps its items in insertion order; assigning to a key that is
    already there replaces the value in place, and assigning to a new key
    appends an item.  [db_clientes.items()] in the export and [list(d.values())]
    in the listings observe that order, so the model is an association list. *)

Module PyDict.
Section dict.
Context {K V : Type} `{EqDecision K}.

Definition dict : Type := list (K * V).

Definition empty : dict := [].

(** [d.get(k)], and [d[k]] where the key is known to be there *)
Fixpoint get (d : dict) (k : K) : option V :=
  match d with
  | [] => None
  | (k', v) :: d' => if decide (k' = k) then Some v else get d' k
  end.

(** [k in d] *)
Definition mem (k : K) (d : dict) : bool :=
  match get d k with Some _ => true | None => false end.

(** [d[k] = v] *)
Fixpoint set (d : dict) (k : K) (v : V) : dict :=
  match d with
  | [] => [(k, v)]
  | (k', v') :: d' =>
      if decide (k' = k) then (k', v) :: d' else (k', v') :: set d' k v
  end.

Definition keys (d : dict) : list K := map fst d.
Definition values (d : dict) : list V := map snd d.
Definition items (d : dict) : list (K * V) := d.
Definition len (d : dict) : Z := Z.of_nat (length d).

End dict.
Arguments dict : clear implicits.
End PyDict.

Abbreviation dict := PyDict.dict.

(** ** The models of [main.py] *)

Record User := mkUser {
  User_id : Z;
  User_email : pystr;
  User_hashed_password : pystr }.

Record UserCreate := mkUserCreate {
  UserCreate_email : pystr;
  UserCreate_password : pystr }.

Record Cliente := mkCliente {
  Cliente_id : Z;
  Cliente_documento : pystr;
  Cliente_first_name : pystr;
  Cliente_last_name : pystr;
  Cliente_email : pystr;
  Cliente_password : pystr }.

Record Factura := mkFactura {
  Factura_id : Z;
  Factura_client_id : Z;
  Factura_company_name : pystr;
  Factura_nit : pystr;
  Factura_code : pystr }.

Record Producto := mkProducto {
  Producto_id : Z;
  Producto_name : pystr;
  Producto_description : pystr }.

(** The form fields a client submits to [POST /token]. *)
Record FormData := mkFormData {
  username : pystr;
  password : pystr }.

(** The values the handlers are given and put in the dictionaries they
    return.  An object is the name of its class and its instance
    attributes. *)
#[warnings="-register-all"]
Inductive pyval :=
| VStr (s : pystr)
| VInt (n : Z)
| VBool (b : bool)
| VNone
| VObj (class : pystr) (attrs : list (pystr * pyval)).

(** [str(v)]; the export applies it to the integers and strings of a row. *)
Definition str_of (v : pyval) : pystr :=
  match v with
  | VStr s => s
  | VInt n => str_int n
  | VBool b => if b then py "True" else py "False"
  | VNone => py "None"
  | VObj class _ => py "<" ++ class ++ py " object>"
  end.

(** ** Exceptions *)

Inductive exn :=
| HTTPException (status_code : Z) (detail : pystr)
| ValidationError (fields : list pystr)
| TypeError
| KeyError
| ValueError
| AttributeError
| RequestValidationError
| ResponseValidationError
| UnicodeDecodeError
| CsvError.

(** ** The stores and the handler monad *)

(** [user_data], the dictionary [register] stores under the e-mail. *)
Record user_dict := mkUserDict {
  ud_id : Z;
  ud_email : pystr;
  ud_hashed_password : pystr }.

Record State := mkState {
  db_users : dict pystr user_dict;
  db_clientes : dict Z Cliente;
  db_facturas : dict Z Factura;
  db_productos : dict Z Producto }.

Definition empty_state : State :=
  {| db_users := []; db_clientes := []; db_facturas := []; db_productos := [] |}.

Inductive outcome (A : Type) :=
| Return (a : A)
| Raise (e : exn).
Arguments Return {A} a.
Arguments Raise {A} e.

(** A handler runs on the stores and leaves them as they are when it returns
    or raises: what was written before a [raise] stays written. *)
Definition handler (A : Type) : Type := State -> outcome A * State.

Definition ret {A} (a : A) : handler A := fun st => (Return a, st).
Definition raise {A} (e : exn) : handler A := fun st => (Raise e, st).
Definition bind {A B} (m : handler A) (k : A -> handler B) : handler B :=
  fun st =>
    match m st with
    | (Return a, st') => k a st'
    | (Raise e, st') => (Raise e, st')
    end.
Definition read {A} (f : State -> A) : handler A := fun st => (Return (f st), st).
Definition write (f : State -> State) : handler unit := fun st => (Return tt, f st).

(** A call that touches no store: it returns or raises. *)
Definition lift {A} (o : outcome A) : handler A := fun st => (o, st).

(** [o.name]: the instance attribute of that name, [AttributeError] when the
    object has none (neither of the classes met here defines [username] or
    [password] on the class itself). *)
Definition getattr (o : pyval) (name : pystr) : outcome pyval :=
  match o with
  | VObj _ attrs =>
      match PyDict.get attrs name with
      | Some v => Return v
      | None => Raise AttributeError
      end
  | _ => Raise AttributeError
  end.

(** [d[k]] in a handler: [KeyError] when the key is not there. *)
Definition subscript {K V} `{EqDecision K} (d : PyDict.dict K V) (k : K) : handler V :=
  match PyDict.get d k with
  | Some v => ret v
  | None => raise KeyError
  end.

Notation "'let!' x ':=' m 'in' k" := (bind m (fun x => k))
  (at level 10, x name, m at level 100, k at level 200).
Notation "m ';;' k" := (bind m (fun _ => k))
  (at level 100, k at level 200, right associativity).

Definition set_db_users (d : dict pystr user_dict) (st : State) : State :=
  {| db_users := d; db_clientes := db_clientes st;
     db_facturas := db_facturas st; db_productos := db_productos st |}.
Definition set_db_clientes (d : dict Z Cliente) (st : State) : State :=
  {| db_users := db_users st; db_clientes := d;
     db_facturas := db_facturas st; db_productos := db_productos st |}.
Definition set_db_facturas (d : dict Z Factura) (st : State) : State :=
  {| db_users := db_users st; db_clientes := db_clientes st;
     db_facturas := d; db_productos := db_productos st |}.
Definition set_db_productos (d : dict Z Producto) (st : State) : State :=
  {| db_users := db_users st; db_clientes := db_clientes st;
     db_facturas := db_facturas st; db_productos := d |}.

(** ** What the program takes from its libraries

    [passlib]'s bcrypt and pydantic's coercion of a CSV cell to [int] are not
    part of the repository.  The handlers are written against this interface:
    [bcrypt_hash salt secret] is [bcrypt.hash(secret)] when the library draws
    [salt], [bcrypt_verify secret hash] is [bcrypt.verify(secret, hash)], and
    [int_of_str s] is the integer pydantic reads from the string [s], if any.
    Both bcrypt calls may raise (the library refuses some secrets and some
    hashes); nothing is assumed about when. *)
Class Libraries := {
  bcrypt_hash : pystr -> pystr -> outcome pystr;
  bcrypt_verify : pystr -> pystr -> outcome bool;
  int_of_str : pystr -> option Z }.

Section Handlers.
Context `{Libraries}.

(** *** The user store *)

(** [get_user(db, email)]: [None] when the e-mail is not a key. *)
Definition get_user (db : dict pystr user_dict) (email : pystr) : option User :=
  if PyDict.mem email db then
    match PyDict.get db email with
    | Some user_dict =>
        Some (mkUser (ud_id user_dict) (ud_email user_dict)
                (ud_hashed_password user_dict))
    | None => None
    end
  else None.

(** [POST /register]; [salt] is the salt [bcrypt.hash] draws. *)
Definition register (salt : pystr) (user : UserCreate) : handler User :=
  let! db := read db_users in
  if PyDict.mem (UserCreate_email user) db then
    raise (HTTPException 400 (py "Email already registered"))
  else
    let! hashed_password := lift (bcrypt_hash salt (UserCreate_password user)) in
    let user_data :=
      mkUserDict (PyDict.len db + 1) (UserCreate_email user) hashed_password in
    write (set_db_users (PyDict.set db (UserCreate_email user) user_data)) ;;
    ret (mkUser (ud_id user_data) (ud_email user_data)
           (ud_hashed_password user_data)).

(** The body of [login_for_access_token], on the object it is handed as
    [form_data].  A [username] that is no string is no key of [db_users]
    (objects taken as hashable), and bcrypt refuses a secret that is no
    string. *)
Definition login_for_access_token (form_data : pyval)
  : handler (dict pystr pyval) :=
  let! db := read db_users in
  let! username := lift (getattr form_data (py "username")) in
  let user :=
    match username with
    | VStr email => get_user db email
    | _ => None
    end in
  let! verified :=
    match user with
    | Some user =>
        let! password := lift (getattr form_data (py "password")) in
        match password with
        | VStr secret => lift (bcrypt_verify secret (User_hashed_password user))
        | _ => raise TypeError
        end
    | None => ret false
    end in
  if verified
  then ret [(py "access_token", form_data); (py "token_type", VStr (py "bearer"))]
  else raise (HTTPException 401 (py "Invalid credentials")).

(** The parameters of [OAuth2PasswordBearer] that a request to [/token] can
    give in its query string. *)
Record TokenQuery := mkTokenQuery {
  tokenUrl : pystr;
  scheme_name : option pystr;
  description : option pystr;
  auto_error : bool }.

(** The object FastAPI makes for [form_data: OAuth2PasswordBearer = Depends()]:
    with no dependency named, the annotation is the dependency, so the class
    is called with the parameters found in the request.  Its constructor
    sets three attributes: [model], [scheme_name] (the class name when none
    is given) and [auto_error]. *)
Definition OAuth2PasswordBearer (q : TokenQuery) : pyval :=
  VObj (py "OAuth2PasswordBearer")
    [(py "model",
      VObj (py "OAuth2")
        [(py "flows",
          VObj (py "OAuthFlows")
            [(py "password",
              VObj (py "OAuthFlowPassword")
                [(py "tokenUrl", VStr (tokenUrl q));
                 (py "scopes", VObj (py "dict") [])])]);
         (py "description",
          match description q with Some d => VStr d | None => VNone end)]);
     (py "scheme_name",
      VStr match scheme_name q with
           | Some (c :: name) => c :: name
           | _ => py "OAuth2PasswordBearer"
           end);
     (py "auto_error", VBool (auto_error q))].

(** [response_model=Token]: what the handler returns must have a string
    under [access_token] and under [token_type]. *)
Definition Token_response (answer : dict pystr pyval)
  : outcome (dict pystr pyval) :=
  match PyDict.get answer (py "access_token"),
        PyDict.get answer (py "token_type") with
  | Some (VStr access_token), Some (VStr token_type) =>
      Return [(py "access_token", VStr access_token);
              (py "token_type", VStr token_type)]
  | _, _ => Raise ResponseValidationError
  end.

(** [POST /token] as it is served.  [query] is what the query string gives
    for the parameters of the dependency, [None] when it does not fit them
    (no [tokenUrl], say): the request is then refused before the handler runs.
    The form fields of the request are not parameters of the dependency and
    reach nothing. *)
Definition token_route (query : option TokenQuery) (form : FormData)
  : handler (dict pystr pyval) :=
  match query with
  | None => raise RequestValidationError
  | Some q =>
      let! answer := login_for_access_token (OAuth2PasswordBearer q) in
      lift (Token_response answer)
  end.

(** [GET /protected]; [token] is what the [oauth2_scheme] dependency hands
    over, the body never looks at it. *)
Definition protected_route (token : pystr) : handler (dict pystr pyval) :=
  ret [(py "message", VStr (py "Access granted"))].

(** *** The three registries *)

Definition create_cliente (cliente : Cliente) : handler Cliente :=
  let! db := read db_clientes in
  if PyDict.mem (Cliente_id cliente) db then
    raise (HTTPException 400 (py "Client ID already exists"))
  else
    write (set_db_clientes (PyDict.set db (Cliente_id cliente) cliente)) ;;
    ret cliente.

Definition read_clientes : handler (list Cliente) :=
  let! db := read db_clientes in ret (PyDict.values db).

Definition read_cliente (cliente_id : Z) : handler Cliente :=
  let! db := read db_clientes in
  if negb (PyDict.mem cliente_id db) then
    raise (HTTPException 404 (py "Client not found"))
  else subscript db cliente_id.

Definition create_factura (factura : Factura) : handler Factura :=
  let! db := read db_facturas in
  if PyDict.mem (Factura_id factura) db then
    raise (HTTPException 400 (py "Factura ID already exists"))
  else
    write (set_db_facturas (PyDict.set db (Factura_id factura) factura)) ;;
    ret factura.

Definition read_facturas : handler (list Factura) :=
  let! db := read db_facturas in ret (PyDict.values db).

Definition read_factura (factura_id : Z) : handler Factura :=
  let! db := read db_facturas in
  if negb (PyDict.mem factura_id db) then
    raise (HTTPException 404 (py "Factura not found"))
  else subscript db factura_id.

Definition create_producto (producto : Producto) : handler Producto :=
  let! db := read db_productos in
  if PyDict.mem (Producto_id producto) db then
    raise (HTTPException 400 (py "Producto ID already exists"))
  else
    write (set_db_productos (PyDict.set db (Producto_id producto) producto)) ;;
    ret producto.

Definition read_productos : handler (list Producto) :=
  let! db := read db_productos in ret (PyDict.values db).

Definition read_producto (producto_id : Z) : handler Producto :=
  let! db := read db_productos in
  if negb (PyDict.mem producto_id db) then
    raise (HTTPException 404 (py "Producto not found"))
  else subscript db producto_id.

End Handlers.

(** ** The CSV bridge: export *)

(** What the asynchronous generator of a streamed body does, in order: it
    suspends at an [await], or hands a chunk to the response. *)
Inductive gen_event :=
| Await_sleep
| Yield (chunk : pystr).

Record StreamingResponse := mkStreamingResponse {
  body : list gen_event;
  media_type : pystr;
  response_headers : dict pystr pystr }.

Definition headers : list pystr :=
  [py "ID"; py "Documento"; py "Nombre Completo"; py "Cantidad de Facturas"].

Definition newline : pystr := py (String (ascii_of_N 10) EmptyString).

(** The first loop of [export_clients_csv]: one appended row per item of
    [db_clientes], the count taken over [db_facturas.values()] with the
    item's key. *)
Definition export_rows (clientes : dict Z Cliente) (facturas : dict Z Factura)
  : list (list pyval) :=
  fold_left
    (fun rows '(cliente_id, cliente) =>
       let nombre_completo :=
         Cliente_first_name cliente ++ py " " ++ Cliente_last_name cliente in
       let cantidad_facturas :=
         Z.of_nat
           (length (filter (fun f => Factura_client_id f = cliente_id)
                      (PyDict.values facturas))) in
       rows ++ [[VInt (Cliente_id cliente); VStr (Cliente_documento cliente);
                 VStr nombre_completo; VInt cantidad_facturas]])
    (PyDict.items clientes) [].

(** The [for] loop of [generate]: [content] grows by one line per row and the
    generator suspends once after each. *)
Fixpoint generate_rows (rows : list (list pyval)) (content : pystr)
  : list gen_event * pystr :=
  match rows with
  | [] => ([], content)
  | row :: rows' =>
      let content := content ++ join (py ",") (map str_of row) ++ newline in
      let '(evs, content) := generate_rows rows' content in
      (Await_sleep :: evs, content)
  end.

(** [generate()], run to its end. *)
Definition generate (rows : list (list pyval)) : list gen_event :=
  let content := join (py ",") headers ++ newline in
  let '(evs, content) := generate_rows rows content in
  evs ++ [Yield content].

(** [GET /export_clients_csv] *)
Definition export_clients_csv : handler StreamingResponse :=
  let! clientes := read db_clientes in
  let! facturas := read db_facturas in
  let rows := export_rows clientes facturas in
  ret (mkStreamingResponse (generate rows) (py "text/csv")
         [(py "Content-Disposition", py "attachment;filename=clientes.csv")]).

(** The chunks a body sends, in order, and the text they add up to. *)
Definition chunks (evs : list gen_event) : list pystr :=
  omap (fun ev => match ev with Yield c => Some c | Await_sleep => None end) evs.

Definition sent_text (r : StreamingResponse) : pystr := concat (chunks (body r)).

(** ** The CSV bridge: import *)

(** *** [bytes.decode("utf-8")]

    The strict decoder: well-formed sequences only (no overlong forms, no
    surrogates, nothing above U+10FFFF); [None] is [UnicodeDecodeError]. *)

Definition between (lo hi b : N) : bool := ((lo <=? b) && (b <=? hi))%N.
Definition continuation (b : N) : bool := between 128 191 b.

Fixpoint decode_utf8 (bs : list N) : option pystr :=
  match bs with
  | [] => Some []
  | b0 :: r0 =>
      if (b0 <? 128)%N then cons b0 <$> decode_utf8 r0
      else if between 194 223 b0 then
        match r0 with
        | b1 :: r1 =>
            if continuation b1
            then cons ((b0 - 192) * 64 + (b1 - 128))%N <$> decode_utf8 r1
            else None
        | _ => None
        end
      else if between 224 239 b0 then
        match r0 with
        | b1 :: b2 :: r2 =>
            if between (if (b0 =? 224)%N then 160 else 128)
                       (if (b0 =? 237)%N then 159 else 191) b1
               && continuation b2
            then cons ((b0 - 224) * 4096 + (b1 - 128) * 64 + (b2 - 128))%N
                   <$> decode_utf8 r2
            else None
        | _ => None
        end
      else if between 240 244 b0 then
        match r0 with
        | b1 :: b2 :: b3 :: r3 =>
            if between (if (b0 =? 240)%N then 144 else 128)
                       (if (b0 =? 244)%N then 143 else 191) b1
               && continuation b2 && continuation b3
            then cons ((b0 - 240) * 262144 + (b1 - 128) * 4096
                       + (b2 - 128) * 64 + (b3 - 128))%N
                   <$> decode_utf8 r3
            else None
        | _ => None
        end
      else None
  end.

(** The bytes of an uploaded file. *)
Definition decode (file : list Byte.byte) : option pystr :=
  decode_utf8 (map Byte.to_N file).

(** *** [str.splitlines()]

    A line ends at any of the line boundaries of [str.splitlines]; a carriage
    return followed by a line feed is one boundary; the boundaries are dropped
    and there is no empty last line. *)

Definition LF : codepoint := 10%N.
Definition CR : codepoint := 13%N.

Definition is_linebreak (c : codepoint) : bool :=
  bool_decide (c ∈ [10; 11; 12; 13; 28; 29; 30; 133; 8232; 8233]%N).

Fixpoint splitlines_from (line : pystr) (s : pystr) : list pystr :=
  match s with
  | [] => match line with [] => [] | _ => [line] end
  | c :: s' =>
      if is_linebreak c then
        line :: match s' with
                | c' :: s'' =>
                    if bool_decide (c = CR) && bool_decide (c' = LF)
                    then splitlines_from [] s''
                    else splitlines_from [] s'
                | [] => splitlines_from [] s'
                end
      else splitlines_from (line ++ [c]) s'
  end.

Definition splitlines (s : pystr) : list pystr := splitlines_from [] s.

(** *** [csv.reader] over a list of lines

    The reader of the [csv] module with the default ([excel]) dialect:
    a comma as delimiter, the double quote as quote character, doubled quotes, no escape character,
    not strict; a NUL is an ordinary character (CPython 3.11 and later).  The
    parser is the state machine of [_csv.c]; the three states that only an
    escape character reaches are left out. *)

Inductive parser_state :=
| START_RECORD
| START_FIELD
| IN_FIELD
| IN_QUOTED_FIELD
| QUOTE_IN_QUOTED_FIELD
| EAT_CRNL.

#[global] Instance parser_state_eq_dec : EqDecision parser_state.
Proof. solve_decision. Defined.

Record reader := mkReader {
  fields : list pystr;
  field : pystr;
  state : parser_state }.

Definition delimiter : codepoint := 44%N.
Definition quotechar : codepoint := 34%N.
Definition field_limit : Z := 131072.

(** [parse_reset] *)
Definition parse_reset : reader := mkReader [] [] START_RECORD.

Definition set_state (s : parser_state) (r : reader) : reader :=
  mkReader (fields r) (field r) s.

(** [parse_save_field]: the field read so far becomes the row's next field. *)
Definition parse_save_field (r : reader) : reader :=
  mkReader (fields r ++ [field r]) [] (state r).

(** [parse_add_char]; [None] is [_csv.Error], field larger than the limit. *)
Definition parse_add_char (c : codepoint) (r : reader) : option reader :=
  if decide (field_limit <= Z.of_nat (length (field r))) then None
  else Some (mkReader (fields r) (field r ++ [c]) (state r)).

Definition is_crnl (c : codepoint) : bool :=
  bool_decide (c = LF) || bool_decide (c = CR).

Definition start_field (c : option codepoint) (r : reader) : option reader :=
  match c with
  | None => Some (set_state START_RECORD (parse_save_field r))
  | Some c =>
      if is_crnl c then Some (set_state EAT_CRNL (parse_save_field r))
      else if bool_decide (c = quotechar) then Some (set_state IN_QUOTED_FIELD r)
      else if bool_decide (c = delimiter) then Some (parse_save_field r)
      else set_state IN_FIELD <$> parse_add_char c r
  end.

(** [parse_process_char]; the character [None] is the end of the line. *)
Definition parse_process_char (c : option codepoint) (r : reader) : option reader :=
  match state r with
  | START_RECORD =>
      match c with
      | None => Some r
      | Some c' =>
          if is_crnl c' then Some (set_state EAT_CRNL r)
          else start_field c (set_state START_FIELD r)
      end
  | START_FIELD => start_field c r
  | IN_FIELD =>
      match c with
      | None => Some (set_state START_RECORD (parse_save_field r))
      | Some c =>
          if is_crnl c then Some (set_state EAT_CRNL (parse_save_field r))
          else if bool_decide (c = delimiter)
               then Some (set_state START_FIELD (parse_save_field r))
          else parse_add_char c r
      end
  | IN_QUOTED_FIELD =>
      match c with
      | None => Some r
      | Some c =>
          if bool_decide (c = quotechar) then Some (set_state QUOTE_IN_QUOTED_FIELD r)
          else parse_add_char c r
      end
  | QUOTE_IN_QUOTED_FIELD =>
      match c with
      | None => Some (set_state START_RECORD (parse_save_field r))
      | Some c =>
          if bool_decide (c = quotechar)
          then set_state IN_QUOTED_FIELD <$> parse_add_char c r
          else if bool_decide (c = delimiter)
               then Some (set_state START_FIELD (parse_save_field r))
          else if is_crnl c then Some (set_state EAT_CRNL (parse_save_field r))
          else set_state IN_FIELD <$> parse_add_char c r
      end
  | EAT_CRNL =>
      match c with
      | None => Some (set_state START_RECORD r)
      | Some c => if is_crnl c then Some r else None
      end
  end.

(** One line of the input: its characters, then the end of the line. *)
Fixpoint parse_line (line : pystr) (r : reader) : option reader :=
  match line with
  | [] => parse_process_char None r
  | c :: line' => parse_process_char (Some c) r ≫= parse_line line'
  end.

(** What iterating an iterator to its end gives: its items, and then either
    [StopIteration] or the exception that [next] raised. *)
Inductive iter (A : Type) :=
| Stop
| Next (a : A) (rest : iter A)
| Throw (e : exn).
Arguments Stop {A}.
Arguments Next {A} a rest.
Arguments Throw {A} e.

(** [Reader_iternext], repeated: [r] is the parser where the next line
    starts, [parse_reset] at the start of a row.  A row ends with the line
    that leaves the parser in [START_RECORD]; when the lines end inside a
    quoted field, what was read is the last row. *)
Fixpoint reader_rows (r : reader) (lines : list pystr) : iter (list pystr) :=
  match lines with
  | [] =>
      if bool_decide (field r ≠ []) || bool_decide (state r = IN_QUOTED_FIELD)
      then Next (fields (parse_save_field r)) Stop
      else Stop
  | line :: lines' =>
      match parse_line line r with
      | None => Throw CsvError
      | Some r' =>
          if bool_decide (state r' = START_RECORD)
          then Next (fields r') (reader_rows parse_reset lines')
          else reader_rows r' lines'
      end
  end.

Definition csv_reader (lines : list pystr) : iter (list pystr) :=
  reader_rows parse_reset lines.

(** *** [csv.DictReader] *)

(** A value of a row dictionary: a cell, [None] for a cell the row does not
    have ([restval]), or the list of the cells beyond the header, which goes
    under the key [None] ([restkey]). *)
Inductive cell :=
| CStr (s : pystr)
| CNone
| CList (l : list pystr).

Definition row_dict : Type := dict (option pystr) cell.

(** [dict(zip(fieldnames, row))], then the rest key or the rest values. *)
Definition make_row (fieldnames row : list pystr) : row_dict :=
  let d :=
    fold_left (fun d '(k, v) => PyDict.set d (Some k) (CStr v))
      (zip fieldnames row) [] in
  let lf := length fieldnames in
  let lr := length row in
  if decide (lf < lr)%nat then PyDict.set d None (CList (drop lf row))
  else if decide (lr < lf)%nat then
    fold_left (fun d key => PyDict.set d (Some key) CNone) (drop lr fieldnames) d
  else d.

(** [DictReader.__next__] after the header: empty rows are skipped. *)
Fixpoint dict_rows (fieldnames : list pystr) (rows : iter (list pystr))
  : iter row_dict :=
  match rows with
  | Stop => Stop
  | Throw e => Throw e
  | Next row rest =>
      match row with
      | [] => dict_rows fieldnames rest
      | _ => Next (make_row fieldnames row) (dict_rows fieldnames rest)
      end
  end.

(** [csv.DictReader(lines)]: the first row of the reader, empty or not, is
    the header. *)
Definition DictReader (lines : list pystr) : iter row_dict :=
  match csv_reader lines with
  | Stop => Stop
  | Throw e => Throw e
  | Next fieldnames rest => dict_rows fieldnames rest
  end.

Section Bridge.
Context `{Libraries}.

(** *** The model built from a row: [Cliente] called with the row's items as
    keyword arguments *)

(** A [str] field: the cell under the field's name. *)
Definition str_field (row : row_dict) (name : pystr) : option pystr :=
  match PyDict.get row (Some name) with
  | Some (CStr s) => Some s
  | _ => None
  end.

(** An [int] field: the cell under the field's name, read as an integer. *)
Definition int_field (row : row_dict) (name : pystr) : option Z :=
  str_field row name ≫= int_of_str.

Definition missing {A} (name : pystr) (v : option A) : list pystr :=
  match v with Some _ => [] | None => [name] end.

(** A key that is not a string cannot be a keyword ([TypeError]); then every
    field of the model must be there and well typed, and the validation
    error lists the fields that are not. *)
Definition Cliente_of_row (row : row_dict) : outcome Cliente :=
  if PyDict.mem None row then Raise TypeError
  else
    let id := int_field row (py "id") in
    let documento := str_field row (py "documento") in
    let first_name := str_field row (py "first_name") in
    let last_name := str_field row (py "last_name") in
    let email := str_field row (py "email") in
    let password := str_field row (py "password") in
    match id, documento, first_name, last_name, email, password with
    | Some i, Some d, Some f, Some l, Some e, Some p =>
        Return (mkCliente i d f l e p)
    | _, _, _, _, _, _ =>
        Raise (ValidationError
                 (missing (py "id") id ++ missing (py "documento") documento
                  ++ missing (py "first_name") first_name
                  ++ missing (py "last_name") last_name
                  ++ missing (py "email") email
                  ++ missing (py "password") password))
    end.

(** The [for row in reader] loop of [upload_clients_csv]. *)
Fixpoint upload_rows (rows : iter row_dict) : handler unit :=
  match rows with
  | Stop => ret tt
  | Throw e => raise e
  | Next row rest =>
      let! cliente := lift (Cliente_of_row row) in
      let! db := read db_clientes in
      write (set_db_clientes (PyDict.set db (Cliente_id cliente) cliente)) ;;
      upload_rows rest
  end.

(** [POST /upload_clients_csv]; [file] is what [file.read()] returns. *)
Definition upload_clients_csv (file : list Byte.byte)
  : handler (dict pystr pyval) :=
  match decode file with
  | None => raise UnicodeDecodeError
  | Some content =>
      let reader := DictReader (splitlines content) in
      upload_rows reader ;;
      ret [(py "message", VStr (py "Clientes cargados exitosamente"))]
  end.

End Bridge.

(** ** A concrete instance of the library interface

    Used to run the handlers on concrete requests: integers are read in
    plain decimal, and the stand-in for bcrypt keeps the salt and the secret
    side by side and, like bcrypt, refuses a secret with a NUL in it. *)

Definition digit_value (c : codepoint) : option Z :=
  if between 48 57 c then Some (Z.of_N c - 48) else None.

Fixpoint decimal_digits (acc : Z) (s : pystr) : option Z :=
  match s with
  | [] => Some acc
  | c :: s' => digit_value c ≫= fun d => decimal_digits (10 * acc + d) s'
  end.

Definition decimal_int (s : pystr) : option Z :=
  match s with
  | [] => None
  | c :: s' =>
      if bool_decide (c = 45%N) then
        match s' with [] => None | _ => Z.opp <$> decimal_digits 0 s' end
      else decimal_digits 0 s
  end.

Definition sample_libraries : Libraries := {|
  bcrypt_hash salt secret :=
    if bool_decide (0%N ∈ secret) then Raise ValueError
    else Return (salt ++ py "$" ++ secret);
  bcrypt_verify secret hash :=
    if bool_decide (0%N ∈ secret) then Raise ValueError
    else Return (bool_decide (drop (length hash - length secret - 1) hash
                              = py "$" ++ secret));
  int_of_str := decimal_int |}.

(** The bytes of a text that is all ASCII. *)
Definition ascii_bytes (s : pystr) : list Byte.byte := omap Byte.of_N s.

(** ** The application: one route, one handler *)

Inductive request :=
| POST_register (salt : pystr) (user : UserCreate)
| POST_token (query : option TokenQuery) (form : FormData)
| GET_protected (token : pystr)
| POST_clientes (cliente : Cliente)
| GET_clientes
| GET_cliente (cliente_id : Z)
| GET_export_clients_csv
| POST_upload_clients_csv (file : list Byte.byte)
| POST_facturas (factura : Factura)
| GET_facturas
| GET_factura (factura_id : Z)
| POST_productos (producto : Producto)
| GET_productos
| GET_producto (producto_id : Z).

Section App.
Context `{Libraries}.

(** The stores once the request has been served, whatever the answer was. *)
Definition after (req : request) (st : State) : State :=
  match req with
  | POST_register salt user => snd (register salt user st)
  | POST_token query form => snd (token_route query form st)
  | GET_protected token => snd (protected_route token st)
  | POST_clientes cliente => snd (create_cliente cliente st)
  | GET_clientes => snd (read_clientes st)
  | GET_cliente cliente_id => snd (read_cliente cliente_id st)
  | GET_export_clients_csv => snd (export_clients_csv st)
  | POST_upload_clients_csv file => snd (upload_clients_csv file st)
  | POST_facturas factura => snd (create_factura factura st)
  | GET_facturas => snd (read_facturas st)
  | GET_factura factura_id => snd (read_factura factura_id st)
  | POST_productos producto => snd (create_producto producto st)
  | GET_productos => snd (read_productos st)
  | GET_producto producto_id => snd (read_producto producto_id st)
  end.

(** The states of a running process: the four dictionaries start empty and
    change only as requests are served. *)
Inductive reachable : State -> Prop :=
| reachable_start : reachable empty_state
| reachable_step st req : reachable st -> reachable (after req st).

End App.

(** ** The vocabulary of the properties *)

(** Every key of a registry is the id of the record stored under it. *)
Definition keyed_by_id {V} (id : V -> Z) (d : dict Z V) : Prop :=
  forall k v, PyDict.get d k = Some v -> id v = k.

Definition keys_are_ids (st : State) : Prop :=
  keyed_by_id Cliente_id (db_clientes st)
  /\ keyed_by_id Factura_id (db_facturas st)
  /\ keyed_by_id Producto_id (db_productos st).

(** The same, item by item, together with what makes the association list a
    dictionary: no key twice. *)
Definition well_keyed {V} (id : V -> Z) (d : dict Z V) : Prop :=
  Forall (fun kv => id kv.2 = kv.1) d /\ NoDup (PyDict.keys d).

Definition well_formed (st : State) : Prop :=
  NoDup (PyDict.keys (db_users st))
  /\ well_keyed Cliente_id (db_clientes st)
  /\ well_keyed Factura_id (db_facturas st)
  /\ well_keyed Producto_id (db_productos st).

(** The client summary as the specification words it: the number of invoices
    whose [client_id] is the client's id, and the row
    [id,documento,first_name last_name,count]. *)
Definition invoice_count (facturas : dict Z Factura) (client_id : Z) : Z :=
  Z.of_nat (length (filter (fun f => Factura_client_id f = client_id)
                      (PyDict.values facturas))).

Definition summary_row (facturas : dict Z Factura) (c : Cliente) : pystr :=
  str_int (Cliente_id c) ++ py "," ++ Cliente_documento c ++ py ","
  ++ (Cliente_first_name c ++ py " " ++ Cliente_last_name c) ++ py ","
  ++ str_int (invoice_count facturas (Cliente_id c)).

Definition header_row : pystr :=
  py "ID,Documento,Nombre Completo,Cantidad de Facturas".

Definition summary_text (clientes : dict Z Cliente) (facturas : dict Z Factura)
  : pystr :=
  header_row ++ newline
  ++ concat (map (fun c => summary_row facturas c ++ newline)
               (PyDict.values clientes)).

(** The text of the export of a state. *)
Definition exported_text (st : State) : pystr :=
  match fst (export_clients_csv st) with
  | Return r => sent_text r
  | Raise _ => []
  end.

(** Incremental streaming as the specification words it: every data row is
    sent as a chunk of its own, so there are at least as many chunks as
    clients. *)
Definition one_chunk_per_row (st : State) (r : StreamingResponse) : Prop :=
  (length (db_clientes st) <= length (chunks (body r)))%nat.

(** What the round trip is to reproduce: the ids, the document numbers and
    the names of the clients, as a set. *)
Definition client_facts (d : dict Z Cliente) : list (Z * pystr * pystr) :=
  map (fun c => (Cliente_id c, Cliente_documento c,
                 Cliente_first_name c ++ py " " ++ Cliente_last_name c))
    (PyDict.values d).

Definition same_clients (d1 d2 : dict Z Cliente) : Prop :=
  forall x, x ∈ client_facts d1 <-> x ∈ client_facts d2.

(** The items an iterator gives before it ends, and how it ends: [None] for
    [StopIteration]. *)
Fixpoint iter_items {A} (it : iter A) : list A :=
  match it with
  | Next a rest => a :: iter_items rest
  | _ => []
  end.

Fixpoint iter_end {A} (it : iter A) : option exn :=
  match it with
  | Stop => None
  | Throw e => Some e
  | Next _ rest => iter_end rest
  end.

(** The field names of the [Cliente] model. *)
Definition Cliente_fields : list pystr :=
  [py "id"; py "documento"; py "first_name"; py "last_name"; py "email";
   py "password"].

(** The requests of the scenarios. *)
Definition ana : Cliente :=
  mkCliente 1 (py "D1") (py "Ana") (py "Lee") (py "a@x.com") (py "p").
Definition bob : Cliente :=
  mkCliente 2 (py "D2") (py "Bob") (py "Roe") (py "b@x.com") (py "q").
Definition acme : Factura :=
  mkFactura 10 1 (py "Acme") (py "N1") (py "C1").
Definition widget : Producto := mkProducto 5 (py "Widget") (py "A widget").

(** One client and one invoice, as in the scenario of the specification. *)
Definition scenario_state : State :=
  snd (create_factura acme (snd (create_cliente ana empty_state))).

(** Two clients, one invoice, one product. *)
Definition busy_state : State :=
  snd (create_producto widget
         (snd (create_cliente bob scenario_state))).

(** The line [generate] adds for a row. *)
Definition row_line (row : list pyval) : pystr :=
  join (py ",") (map str_of row) ++ newline.

(** The row the first loop of the export appends for an item. *)
Definition item_row (facturas : dict Z Factura) (kc : Z * Cliente) : list pyval :=
  [VInt (Cliente_id kc.2); VStr (Cliente_documento kc.2);
   VStr (Cliente_first_name kc.2 ++ py " " ++ Cliente_last_name kc.2);
   VInt (invoice_count facturas kc.1)].

(** [db_clientes[c.id] = c], for the clients of an import in order. *)
Definition upsert_all (cs : list Cliente) (d : dict Z Cliente) : dict Z Cliente :=
  fold_left (fun d c => PyDict.set d (Cliente_id c) c) cs d.

(** The upsert, key by key: the last client of the import with that id, and
    what was stored when there is none. *)
Definition last_with_id (k : Z) (cs : list Cliente) : option Cliente :=
  last (filter (fun c => Cliente_id c = k) cs).

(** No row, or only empty ones, before a normal end: what a [DictReader]
    skips entirely. *)
Fixpoint blank (rows : iter (list pystr)) : bool :=
  match rows with
  | Stop => true
  | Throw _ => false
  | Next [] rest => blank rest
  | Next _ _ => false
  end.

(** The parser has begun a row: it holds a field already, or it is inside
    one. *)
Definition started (r : reader) : bool :=
  bool_decide (fields r <> [])
  || match state r with
     | START_RECORD | EAT_CRNL => false
     | _ => true
     end.

(** A character with no meaning for the line splitter or the CSV parser. *)
Definition plain (c : codepoint) : bool :=
  negb (is_linebreak c) && negb (bool_decide (c = quotechar))
  && negb (bool_decide (c = delimiter)).

(** A file for the import: the header of the model and two clients. *)
Definition clients_csv : pystr :=
  py "id,documento,first_name,last_name,email,password" ++ newline
  ++ py "1,Z9,Eva,Poe,e@x.com,zz" ++ newline
  ++ py "7,D7,Al,Bo,c@x.com,pw" ++ newline.
Definition eva : Cliente :=
  mkCliente 1 (py "Z9") (py "Eva") (py "Poe") (py "e@x.com") (py "zz").
Definition al : Cliente :=
  mkCliente 7 (py "D7") (py "Al") (py "Bo") (py "c@x.com") (py "pw").

(** A registration and the state it leaves. *)
Definition carol : UserCreate := mkUserCreate (py "carol@x.com") (py "secret").
Definition carol_state : State :=
  set_db_users
    [(py "carol@x.com",
      mkUserDict 1 (py "carol@x.com") (py "salt$secret"))] empty_state.

(** ** More vocabulary: the stores, the import and the reader *)

(** The exception a request is answered with, if any. *)
Definition raised `{Libraries} (req : request) (st : State) : option exn :=
  let failure {A} (o : outcome A) :=
    match o with Return _ => None | Raise e => Some e end in
  match req with
  | POST_register salt user => failure (fst (register salt user st))
  | POST_token query form => failure (fst (token_route query form st))
  | GET_protected token => failure (fst (protected_route token st))
  | POST_clientes cliente => failure (fst (create_cliente cliente st))
  | GET_clientes => failure (fst (read_clientes st))
  | GET_cliente cliente_id => failure (fst (read_cliente cliente_id st))
  | GET_export_clients_csv => failure (fst (export_clients_csv st))
  | POST_upload_clients_csv file => failure (fst (upload_clients_csv file st))
  | POST_facturas factura => failure (fst (create_factura factura st))
  | GET_facturas => failure (fst (read_facturas st))
  | GET_factura factura_id => failure (fst (read_factura factura_id st))
  | POST_productos producto => failure (fst (create_producto producto st))
  | GET_productos => failure (fst (read_productos st))
  | GET_producto producto_id => failure (fst (read_producto producto_id st))
  end.

(** The ids of the user store count the registrations: the user at position
    [i] has id [i + 1], and is stored under its own e-mail. *)
Definition users_sequential (d : dict pystr user_dict) : Prop :=
  forall (i : nat) email ud,
    d !! i = Some (email, ud) ->
    ud_id ud = Z.of_nat i + 1 /\ ud_email ud = email.

(** An iterator that gives the items of a list and then goes on as [rest]. *)
Definition rows_then {A} (items : list A) (rest : iter A) : iter A :=
  foldr Next rest items.

(** A file whose second data row has no integer id. *)
Definition broken_csv : pystr :=
  py "id,documento,first_name,last_name,email,password" ++ newline
  ++ py "1,Z9,Eva,Poe,e@x.com,zz" ++ newline
  ++ py "x,D8,Bad,Row,b@x.com,pw" ++ newline
  ++ py "7,D7,Al,Bo,c@x.com,pw" ++ newline.

(** A text with no line boundary in it. *)
Definition one_line (s : pystr) : Prop := Forall (fun c => is_linebreak c = false) s.

(** The lines of a text file, each ended by a line feed. *)
Definition unlines (lines : list pystr) : pystr :=
  concat (map (fun l => l ++ [LF]) lines).

(** [s.split(",")]: the pieces of [s] between its commas. *)
Fixpoint split_from (piece : pystr) (s : pystr) : list pystr :=
  match s with
  | [] => [piece]
  | c :: s' =>
      if bool_decide (c = delimiter) then piece :: split_from [] s'
      else split_from (piece ++ [c]) s'
  end.

Definition split_commas (s : pystr) : list pystr := split_from [] s.

(** A line the CSV reader takes at face value: no line boundary and no
    quote character in it. *)
Definition unquoted (line : pystr) : Prop :=
  one_line line /\ quotechar ∉ line.

(** A text made of plain characters only. *)
Definition plain_text (s : pystr) : Prop := Forall (fun c => plain c = true) s.

(** The cells of the export row of an item, as text. *)
Definition item_cells (facturas : dict Z Factura) (kc : Z * Cliente) : list pystr :=
  map str_of (item_row facturas kc).

(** A Unicode scalar value: a code point up to U+10FFFF that is no
    surrogate. *)
Definition scalar_value (c : codepoint) : Prop :=
  (c < 1114112 /\ ~ (55296 <= c <= 57343))%N.

(** The count cell of an export row. *)
Definition row_count (row : list pyval) : Z :=
  match row !! 3%nat with
  | Some (VInt n) => n
  | _ => 0
  end.

(** The cell of a row in the column that the header names [name]. *)
Fixpoint cell_of (fieldnames row : list pystr) (name : pystr) : option pystr :=
  match fieldnames, row with
  | n :: fieldnames', c :: row' =>
      if decide (n = name) then Some c else cell_of fieldnames' row' name
  | _, _ => None
  end.

(** A third client, and a header with the columns of the model in another
    order and one column more. *)
Definition cleo : Cliente :=
  mkCliente 3 (py "D3") (py "Cleo") (py "Kay") (py "c@x.com") (py "r").
Definition shuffled_header : list pystr :=
  [py "email"; py "id"; py "note"; py "last_name"; py "first_name";
   py "password"; py "documento"].
Definition shuffled_row : list pystr :=
  [py "c@x.com"; py "3"; py "vip"; py "Kay"; py "Cleo"; py "r"; py "D3"].

(** ** UTF-8 as it is written

    UTF-8 as the standard defines it: the one to four bytes of a scalar
    value, six bits to a continuation byte. *)
Definition encode_char (c : codepoint) : list N :=
  if (c <? 128)%N then [c]
  else if (c <? 2048)%N then
    [192 + c / 64; 128 + c mod 64]%N
  else if (c <? 65536)%N then
    [224 + c / 64 / 64; 128 + (c / 64) mod 64; 128 + c mod 64]%N
  else
    [240 + c / 64 / 64 / 64; 128 + (c / 64 / 64) mod 64;
     128 + (c / 64) mod 64; 128 + c mod 64]%N.

Definition encode_utf8 (s : pystr) : list N := concat (map encode_char s).

(** The bytes of a text in UTF-8. *)
Definition utf8_bytes (s : pystr) : list Byte.byte :=
  omap Byte.of_N (encode_utf8 s).

(** ** CSV as it is written

    The text form of a table, as RFC 4180 describes it and [csv.writer]
    writes it.  A cell stands as it is when it holds no comma, no quote and
    no line boundary, and can always stand between quotes with every quote of
    its own doubled; the cells of a record are joined by commas, and a record
    is never an empty line; a record ends in a line feed or in a carriage
    return and a line feed, and the last one may end in nothing. *)
Definition double_quotes (s : pystr) : pystr :=
  flat_map (fun c => if bool_decide (c = quotechar)
                     then [quotechar; quotechar] else [c]) s.

Definition csv_quoted (s : pystr) : pystr :=
  quotechar :: double_quotes s ++ [quotechar].

Inductive csv_cell : pystr -> pystr -> Prop :=
| csv_cell_plain (s : pystr) : plain_text s -> csv_cell s s
| csv_cell_quoted (s : pystr) : csv_cell s (csv_quoted s).

Definition csv_record (cells : list pystr) (line : pystr) : Prop :=
  line <> []
  /\ exists written,
       Forall2 csv_cell cells written /\ line = join (py ",") written.

Inductive csv_text : list (list pystr) -> pystr -> Prop :=
| csv_text_end : csv_text [] []
| csv_text_last (cells : list pystr) (line : pystr) :
    csv_record cells line -> csv_text [cells] line
| csv_text_lf (cells : list pystr) (line : pystr) (rows : list (list pystr))
    (text : pystr) :
    csv_record cells line -> csv_text rows text ->
    csv_text (cells :: rows) (line ++ LF :: text)
| csv_text_crlf (cells : list pystr) (line : pystr) (rows : list (list pystr))
    (text : pystr) :
    csv_record cells line -> csv_text rows text ->
    csv_text (cells :: rows) (line ++ CR :: LF :: text).

(** A cell the import can take: it lies on one line, for the import cuts the
    text into lines before the reader sees it, and it is within the field
    size limit of the reader. *)
Definition importable (cell : pystr) : Prop :=
  one_line cell /\ Z.of_nat (length cell) <= field_limit.

Section row_client.
Context `{Libraries}.

(** The client of a record under a header: every field of the model is the
    cell in the column of that name, the id read as an integer. *)
Definition row_client (fieldnames row : list pystr) : option Cliente :=
  i ← cell_of fieldnames row (py "id") ≫= int_of_str;
  d ← cell_of fieldnames row (py "documento");
  f ← cell_of fieldnames row (py "first_name");
  l ← cell_of fieldnames row (py "last_name");
  e ← cell_of fieldnames row (py "email");
  p ← cell_of fieldnames row (py "password");
  Some (mkCliente i d f l e p).

End row_client.

(** A client whose document holds a comma, whose first name ends in a letter
    outside ASCII (e with diaeresis) and whose last name holds quotes; and a
    file with this client and [al]: the first record ends in a line feed, the
    second in a carriage return and a line feed, the last in nothing. *)
Definition zoe : Cliente :=
  mkCliente 1 (py "D,9") (py "Zo" ++ [235%N])
    (py "say " ++ quotechar :: py "hi" ++ [quotechar]) (py "z@x.com") (py "zz").

Definition zoe_record : pystr :=
  join (py ",")
    [py "1"; csv_quoted (py "D,9"); py "Zo" ++ [235%N];
     csv_quoted (py "say " ++ quotechar :: py "hi" ++ [quotechar]);
     py "z@x.com"; py "zz"].

Definition quoted_csv : pystr :=
  join (py ",") Cliente_fields ++ LF ::
  zoe_record ++ CR :: LF ::
  py "7,D7,Al,Bo,c@x.com,pw".

(** * Facts about the dictionaries *)

Section dict_facts.
Context {K V : Type} `{EqDecision K}.
Implicit Types (d : dict K V) (k : K) (v : V).

Lemma mem_true d k : PyDict.mem k d = true <-> is_Some (PyDict.get d k).
Proof.
  unfold PyDict.mem. destruct (PyDict.get d k); split; intros Hm; eauto.
  - discriminate.
  - by destruct Hm.
Qed.

Lemma mem_false d k : PyDict.mem k d = false <-> PyDict.get d k = None.
Proof. unfold PyDict.mem. destruct (PyDict.get d k); split; congruence. Qed.

Lemma get_set_eq d k v : PyDict.get (PyDict.set d k v) k = Some v.
Proof.
  induction d as [|[k' v'] d IH]; simpl.
  - by rewrite decide_True.
  - destruct (decide (k' = k)) as [->|Hne]; simpl.
    + by rewrite decide_True.
    + by rewrite decide_False.
Qed.

Lemma get_set_ne d k k' v :
  k <> k' -> PyDict.get (PyDict.set d k v) k' = PyDict.get d k'.
Proof.
  intros Hne. induction d as [|[k0 v0] d IH]; simpl.
  - by rewrite decide_False.
  - destruct (decide (k0 = k)) as [->|Hk]; simpl.
    + by rewrite !decide_False.
    + by rewrite IH.
Qed.

Lemma get_None_keys d k : PyDict.get d k = None <-> k ∉ PyDict.keys d.
Proof.
  induction d as [|[k' v'] d IH]; simpl.
  - split; [intros _; apply not_elem_of_nil | done].
  - rewrite not_elem_of_cons. destruct (decide (k' = k)) as [->|Hne].
    + split; [discriminate | intros [? _]; congruence].
    + rewrite IH. split; [intros ?; split; congruence | by intros [_ ?]].
Qed.

Lemma get_Some_elem d k v : PyDict.get d k = Some v -> (k, v) ∈ d.
Proof.
  induction d as [|[k' v'] d IH]; simpl; [done|].
  destruct (decide (k' = k)) as [->|Hne].
  - intros [= ->]. apply list_elem_of_here.
  - intros Hg. apply list_elem_of_further. auto.
Qed.

(** Assigning to a key that is not there appends the item. *)
Lemma set_fresh d k v :
  PyDict.get d k = None -> PyDict.set d k v = d ++ [(k, v)].
Proof.
  induction d as [|[k' v'] d IH]; simpl; [done|].
  destruct (decide (k' = k)); [discriminate|].
  intros Hg. by rewrite IH.
Qed.

(** Assigning never changes the keys that were there, nor their order. *)
Lemma keys_set d k v :
  PyDict.keys (PyDict.set d k v)
  = if PyDict.mem k d then PyDict.keys d else PyDict.keys d ++ [k].
Proof.
  unfold PyDict.mem. induction d as [|[k' v'] d IH]; simpl; [done|].
  destruct (decide (k' = k)) as [->|Hne]; simpl; [done|].
  rewrite IH. by destruct (PyDict.get d k).
Qed.

Lemma NoDup_keys_set d k v :
  NoDup (PyDict.keys d) -> NoDup (PyDict.keys (PyDict.set d k v)).
Proof.
  intros Hnd. rewrite keys_set.
  destruct (PyDict.mem k d) eqn:Hm; [done|].
  apply mem_false, get_None_keys in Hm.
  apply NoDup_app. split_and!; [done | | apply NoDup_singleton].
  intros x Hx Hx'. apply list_elem_of_singleton in Hx'. by subst.
Qed.

Lemma Forall_set (P : K * V -> Prop) d k v :
  Forall P d -> (forall k', k' = k -> P (k', v)) -> Forall P (PyDict.set d k v).
Proof.
  intros Hd Hk. induction Hd as [|[k' v'] d HP Hd IH]; simpl.
  - constructor; auto.
  - destruct (decide (k' = k)); constructor; auto.
Qed.

End dict_facts.

Lemma well_keyed_set {V} (id : V -> Z) (d : dict Z V) (v : V) :
  well_keyed id d -> well_keyed id (PyDict.set d (id v) v).
Proof.
  intros [Hall Hnd]. split; [|by apply NoDup_keys_set].
  apply Forall_set; [done|]. by intros k' ->.
Qed.

Lemma well_keyed_keyed_by_id {V} (id : V -> Z) (d : dict Z V) :
  well_keyed id d -> keyed_by_id id d.
Proof.
  intros [Hall _] k v Hg. apply get_Some_elem in Hg.
  rewrite Forall_forall in Hall. exact (Hall _ Hg).
Qed.

(** * The registries: create and get-by-id *)

(** How the handlers are unfolded on a given state. *)
Ltac run_handler :=
  unfold bind, read, write, ret, raise, subscript, lift; simpl.

Lemma create_cliente_spec (c : Cliente) (st : State) :
  create_cliente c st =
    if PyDict.mem (Cliente_id c) (db_clientes st)
    then (Raise (HTTPException 400 (py "Client ID already exists")), st)
    else (Return c,
          set_db_clientes (PyDict.set (db_clientes st) (Cliente_id c) c) st).
Proof.
  unfold create_cliente. run_handler.
  by destruct (PyDict.mem (Cliente_id c) (db_clientes st)).
Qed.

Lemma create_factura_spec (f : Factura) (st : State) :
  create_factura f st =
    if PyDict.mem (Factura_id f) (db_facturas st)
    then (Raise (HTTPException 400 (py "Factura ID already exists")), st)
    else (Return f,
          set_db_facturas (PyDict.set (db_facturas st) (Factura_id f) f) st).
Proof.
  unfold create_factura. run_handler.
  by destruct (PyDict.mem (Factura_id f) (db_facturas st)).
Qed.

Lemma create_producto_spec (p : Producto) (st : State) :
  create_producto p st =
    if PyDict.mem (Producto_id p) (db_productos st)
    then (Raise (HTTPException 400 (py "Producto ID already exists")), st)
    else (Return p,
          set_db_productos (PyDict.set (db_productos st) (Producto_id p) p) st).
Proof.
  unfold create_producto. run_handler.
  by destruct (PyDict.mem (Producto_id p) (db_productos st)).
Qed.

(** C1. In each of the three registries, creating a record whose id is
    already stored fails with the HTTP error 400 and leaves the stores exactly
    as they were: the record under that id and every other entry are
    untouched. *)
Theorem create_existing_id_conflict (st : State) :
  (forall c : Cliente,
      is_Some (PyDict.get (db_clientes st) (Cliente_id c)) ->
      create_cliente c st
      = (Raise (HTTPException 400 (py "Client ID already exists")), st))
  /\ (forall f : Factura,
      is_Some (PyDict.get (db_facturas st) (Factura_id f)) ->
      create_factura f st
      = (Raise (HTTPException 400 (py "Factura ID already exists")), st))
  /\ (forall p : Producto,
      is_Some (PyDict.get (db_productos st) (Producto_id p)) ->
      create_producto p st
      = (Raise (HTTPException 400 (py "Producto ID already exists")), st)).
Proof.
  split_and!; intros r Hr; apply mem_true in Hr.
  - by rewrite create_cliente_spec, Hr.
  - by rewrite create_factura_spec, Hr.
  - by rewrite create_producto_spec, Hr.
Qed.

(** The scenario of the specification: the second [POST /clientes] with id 1
    is answered 400, and so are a second invoice 10 and a second product 5;
    the first records stay. *)
Lemma create_existing_id_conflict_example :
  create_cliente (mkCliente 1 (py "X") (py "Eve") (py "Doe") (py "e@x.com") (py "z"))
    busy_state
  = (Raise (HTTPException 400 (py "Client ID already exists")), busy_state)
  /\ PyDict.get (db_clientes busy_state) 1 = Some ana
  /\ create_factura (mkFactura 10 2 (py "Other") (py "N2") (py "C2")) busy_state
     = (Raise (HTTPException 400 (py "Factura ID already exists")), busy_state)
  /\ create_producto (mkProducto 5 (py "Gadget") (py "")) busy_state
     = (Raise (HTTPException 400 (py "Producto ID already exists")), busy_state).
Proof.
  pose proof (create_existing_id_conflict busy_state) as (Hc & Hf & Hp).
  split_and!.
  - apply Hc. vm_compute. eauto.
  - reflexivity.
  - apply Hf. vm_compute. eauto.
  - apply Hp. vm_compute. eauto.
Defined.

Lemma read_cliente_spec (k : Z) (st : State) :
  read_cliente k st =
    match PyDict.get (db_clientes st) k with
    | Some c => (Return c, st)
    | None => (Raise (HTTPException 404 (py "Client not found")), st)
    end.
Proof.
  unfold read_cliente, PyDict.mem. run_handler.
  by destruct (PyDict.get (db_clientes st) k).
Qed.

Lemma read_factura_spec (k : Z) (st : State) :
  read_factura k st =
    match PyDict.get (db_facturas st) k with
    | Some f => (Return f, st)
    | None => (Raise (HTTPException 404 (py "Factura not found")), st)
    end.
Proof.
  unfold read_factura, PyDict.mem. run_handler.
  by destruct (PyDict.get (db_facturas st) k).
Qed.

Lemma read_producto_spec (k : Z) (st : State) :
  read_producto k st =
    match PyDict.get (db_productos st) k with
    | Some p => (Return p, st)
    | None => (Raise (HTTPException 404 (py "Producto not found")), st)
    end.
Proof.
  unfold read_producto, PyDict.mem. run_handler.
  by destruct (PyDict.get (db_productos st) k).
Qed.

(** C7. In each of the three registries, get-by-id of an id that is not
    stored fails with the HTTP error 404, and get-by-id of a stored id
    returns the record stored under it; either way no store changes. *)
Theorem get_by_id_found_or_404 (st : State) (k : Z) :
  (PyDict.mem k (db_clientes st) = false ->
     read_cliente k st = (Raise (HTTPException 404 (py "Client not found")), st))
  /\ (PyDict.mem k (db_facturas st) = false ->
     read_factura k st = (Raise (HTTPException 404 (py "Factura not found")), st))
  /\ (PyDict.mem k (db_productos st) = false ->
     read_producto k st = (Raise (HTTPException 404 (py "Producto not found")), st))
  /\ (forall c, PyDict.get (db_clientes st) k = Some c ->
        read_cliente k st = (Return c, st))
  /\ (forall f, PyDict.get (db_facturas st) k = Some f ->
        read_factura k st = (Return f, st))
  /\ (forall p, PyDict.get (db_productos st) k = Some p ->
        read_producto k st = (Return p, st)).
Proof.
  rewrite read_cliente_spec, read_factura_spec, read_producto_spec.
  split_and!; try (intros Hm; apply mem_false in Hm); try (intros r Hm);
    by rewrite Hm.
Qed.

(** The scenario of the specification, [GET /facturas/999] with no invoice
    999, and the reads of the stored records. *)
Lemma get_by_id_found_or_404_example :
  read_factura 999 busy_state
  = (Raise (HTTPException 404 (py "Factura not found")), busy_state)
  /\ read_cliente 999 busy_state
     = (Raise (HTTPException 404 (py "Client not found")), busy_state)
  /\ read_producto 999 busy_state
     = (Raise (HTTPException 404 (py "Producto not found")), busy_state)
  /\ read_cliente 2 busy_state = (Return bob, busy_state)
  /\ read_factura 10 busy_state = (Return acme, busy_state)
  /\ read_producto 5 busy_state = (Return widget, busy_state).
Proof.
  pose proof (get_by_id_found_or_404 busy_state 999) as (Hc & Hf & Hp & _).
  split_and!.
  - apply Hf. reflexivity.
  - apply Hc. reflexivity.
  - apply Hp. reflexivity.
  - apply (get_by_id_found_or_404 busy_state 2). reflexivity.
  - apply (get_by_id_found_or_404 busy_state 10). reflexivity.
  - apply (get_by_id_found_or_404 busy_state 5). reflexivity.
Defined.

(** * The user store *)

(** C9. The protected probe answers every token it is handed with its fixed
    success object and leaves the stores alone: the token is never looked at,
    so it makes no difference whether it was ever issued, and in particular
    the probe succeeds when no user has ever registered. *)
Theorem protected_route_grants_any_token (token : pystr) (st : State) :
  protected_route token st
  = (Return [(py "message", VStr (py "Access granted"))], st)
  /\ protected_route token empty_state
     = (Return [(py "message", VStr (py "Access granted"))], empty_state).
Proof. split; reflexivity. Qed.

Section user_store.
Context `{Libraries}.

Lemma get_user_spec (db : dict pystr user_dict) (email : pystr) :
  get_user db email
  = (fun ud => mkUser (ud_id ud) (ud_email ud) (ud_hashed_password ud))
      <$> PyDict.get db email.
Proof.
  unfold get_user, PyDict.mem. by destruct (PyDict.get db email).
Qed.

(** The dependency object has neither attribute the body reads. *)
Lemma OAuth2PasswordBearer_has_no_username (q : TokenQuery) :
  getattr (OAuth2PasswordBearer q) (py "username") = Raise AttributeError
  /\ getattr (OAuth2PasswordBearer q) (py "password") = Raise AttributeError.
Proof. split; reflexivity. Qed.

(** The body of the handler never writes a store. *)
Lemma login_for_access_token_state (form_data : pyval) (st : State) :
  snd (login_for_access_token form_data st) = st.
Proof.
  unfold login_for_access_token. run_handler.
  destruct (getattr form_data (py "username")) as [u|]; simpl; [|done].
  destruct (match u with VStr email => get_user _ email | _ => None end);
    simpl; [|done].
  destruct (getattr form_data (py "password")) as [[secret| | | |]|]; simpl;
    try done.
  by destruct (bcrypt_verify _ _) as [[]|].
Qed.

(** [POST /token] in one equation. *)
Lemma token_route_spec (query : option TokenQuery) (form : FormData) (st : State) :
  token_route query form st
  = (Raise match query with
           | Some _ => AttributeError
           | None => RequestValidationError
           end, st).
Proof. by destruct query. Qed.

(** What the body does when the object it is handed does carry a [username]
    and a [password], as the form class of the framework would: 401 when no
    user is stored under the username or bcrypt does not verify the password,
    and otherwise the dictionary whose [access_token] is the object itself,
    which [response_model=Token] then refuses, an object being no string. *)
Lemma login_body_on_credentials (class : pystr) (attrs : dict pystr pyval)
    (email secret : pystr) (st : State) :
  PyDict.get attrs (py "username") = Some (VStr email) ->
  PyDict.get attrs (py "password") = Some (VStr secret) ->
  let form_data := VObj class attrs in
  (PyDict.get (db_users st) email = None ->
     login_for_access_token form_data st
     = (Raise (HTTPException 401 (py "Invalid credentials")), st))
  /\ (forall ud,
        PyDict.get (db_users st) email = Some ud ->
        bcrypt_verify secret (ud_hashed_password ud) = Return false ->
        login_for_access_token form_data st
        = (Raise (HTTPException 401 (py "Invalid credentials")), st))
  /\ (forall ud,
        PyDict.get (db_users st) email = Some ud ->
        bcrypt_verify secret (ud_hashed_password ud) = Return true ->
        login_for_access_token form_data st
        = (Return [(py "access_token", form_data);
                   (py "token_type", VStr (py "bearer"))], st)
        /\ Token_response [(py "access_token", form_data);
                           (py "token_type", VStr (py "bearer"))]
           = Raise ResponseValidationError).
Proof.
  intros Hu Hp form_data. subst form_data.
  unfold login_for_access_token, getattr. run_handler.
  rewrite Hu. simpl. rewrite get_user_spec. split_and!.
  - by intros ->.
  - intros ud -> Hv. simpl. rewrite Hp. simpl. by rewrite Hv.
  - intros ud -> Hv. simpl. rewrite Hp. simpl. by rewrite Hv.
Qed.

(** C4, on the route as it is served.  The claim does not hold of the code:
    [form_data] is declared an [OAuth2PasswordBearer], an object without
    [username] and [password], so for every submitted username and password
    and in every state the handler raises [AttributeError] on its first line
    when the query string fits the dependency, and the request is refused as
    invalid when it does not.  The route never answers 401 and never returns
    a token, and it leaves the stores as they were. *)
Theorem token_route_never_issues (query : option TokenQuery) (form : FormData)
    (st : State) :
  token_route query form st
  = (Raise match query with
           | Some _ => AttributeError
           | None => RequestValidationError
           end, st)
  /\ (forall answer, fst (token_route query form st) <> Return answer)
  /\ (forall code detail,
        fst (token_route query form st) <> Raise (HTTPException code detail)).
Proof.
  rewrite token_route_spec. split_and!; [done|done|].
  intros code detail. by destruct query.
Qed.

Lemma register_spec (salt : pystr) (user : UserCreate) (st : State) :
  register salt user st =
    if PyDict.mem (UserCreate_email user) (db_users st)
    then (Raise (HTTPException 400 (py "Email already registered")), st)
    else
      match bcrypt_hash salt (UserCreate_password user) with
      | Raise e => (Raise e, st)
      | Return hashed =>
          let id := PyDict.len (db_users st) + 1 in
          (Return (mkUser id (UserCreate_email user) hashed),
           set_db_users
             (PyDict.set (db_users st) (UserCreate_email user)
                (mkUserDict id (UserCreate_email user) hashed)) st)
      end.
Proof.
  unfold register. run_handler.
  destruct (PyDict.mem (UserCreate_email user) (db_users st)); [done|].
  by destruct (bcrypt_hash salt (UserCreate_password user)).
Qed.

(** C5. Registration with an e-mail that is already a key of the user store
    fails with the HTTP error 400 and changes nothing.  Otherwise, with
    [hashed] the hash bcrypt makes of the password with the salt it draws,
    the new user gets the id [len(db_users) + 1], the number of stored users
    plus one; the user is stored under the e-mail with that hash; and the
    record returned carries the id, the e-mail and the hash.  So of two
    registrations with one e-mail, the first succeeds and the second is
    answered 400, whatever its password. *)
Theorem register_conflict_or_next_id (salt : pystr) (user : UserCreate) (st : State) :
  let email := UserCreate_email user in
  let id := Z.of_nat (length (db_users st)) + 1 in
  (PyDict.mem email (db_users st) = true ->
     register salt user st
     = (Raise (HTTPException 400 (py "Email already registered")), st))
  /\ (forall hashed,
        PyDict.mem email (db_users st) = false ->
        bcrypt_hash salt (UserCreate_password user) = Return hashed ->
        exists st',
          register salt user st = (Return (mkUser id email hashed), st')
          /\ db_users st' = db_users st ++ [(email, mkUserDict id email hashed)]
          /\ PyDict.get (db_users st') email = Some (mkUserDict id email hashed)
          /\ db_clientes st' = db_clientes st
          /\ db_facturas st' = db_facturas st
          /\ db_productos st' = db_productos st
          /\ forall salt' password',
              register salt' (mkUserCreate email password') st'
              = (Raise (HTTPException 400 (py "Email already registered")), st')).
Proof.
  intros email id. subst email id.
  rewrite register_spec. split.
  - by intros ->.
  - intros hashed Hm Hhash. rewrite Hm, Hhash. eexists. split; [reflexivity|].
    pose proof Hm as Hg. apply mem_false in Hg. simpl.
    split_and!; try done.
    + by apply set_fresh.
    + apply get_set_eq.
    + intros salt' password'. rewrite register_spec. simpl.
      set (d := PyDict.set _ _ _).
      assert (PyDict.mem (UserCreate_email user) d = true) as ->; [|done].
      apply mem_true. subst d. rewrite get_set_eq. eauto.
Qed.

End user_store.

(** * The export *)

Lemma export_rows_map (clientes : dict Z Cliente) (facturas : dict Z Factura) :
  export_rows clientes facturas = map (item_row facturas) clientes.
Proof.
  unfold export_rows, PyDict.items.
  match goal with |- fold_left ?f _ _ = _ => set (step := f) end.
  assert (forall rows, fold_left step clientes rows
                       = rows ++ map (item_row facturas) clientes) as Hgen;
    [|apply Hgen].
  induction clientes as [|[k c] d IH]; intros rows; simpl.
  - by rewrite app_nil_r.
  - rewrite IH, <- app_assoc. reflexivity.
Qed.

Lemma generate_rows_spec (rows : list (list pyval)) (content : pystr) :
  generate_rows rows content
  = (replicate (length rows) Await_sleep,
     content ++ concat (map row_line rows)).
Proof.
  revert content. induction rows as [|row rows IH]; intros content; simpl.
  - by rewrite app_nil_r.
  - rewrite IH. unfold row_line at 2. by rewrite <- !app_assoc.
Qed.

Lemma chunks_awaits (n : nat) (evs : list gen_event) :
  chunks (replicate n Await_sleep ++ evs) = chunks evs.
Proof. induction n as [|n IH]; simpl; [done|]. exact IH. Qed.

(** The export, in one equation: it never fails, it changes no store, it
    suspends once per client and then sends everything at once. *)
Lemma export_clients_csv_spec (st : State) :
  export_clients_csv st
  = (Return
       (mkStreamingResponse
          (replicate (length (db_clientes st)) Await_sleep
           ++ [Yield (header_row ++ newline
                      ++ concat (map (fun kc => row_line (item_row (db_facturas st) kc))
                                   (db_clientes st)))])
          (py "text/csv")
          [(py "Content-Disposition", py "attachment;filename=clientes.csv")]),
     st).
Proof.
  unfold export_clients_csv. run_handler. unfold generate.
  rewrite generate_rows_spec, export_rows_map, length_map, map_map.
  by rewrite <- app_assoc.
Qed.

Lemma row_line_item_row (facturas : dict Z Factura) (k : Z) (c : Cliente) :
  Cliente_id c = k ->
  row_line (item_row facturas (k, c)) = summary_row facturas c ++ newline.
Proof.
  intros <-. unfold row_line, item_row, summary_row. simpl.
  by rewrite <- !app_assoc.
Qed.

(** * The states of a running process *)

Lemma set_db_clientes_same (st : State) : set_db_clientes (db_clientes st) st = st.
Proof. by destruct st. Qed.

Lemma set_db_clientes_twice (d d' : dict Z Cliente) (st : State) :
  set_db_clientes d (set_db_clientes d' st) = set_db_clientes d st.
Proof. done. Qed.

Lemma upsert_all_well_keyed (cs : list Cliente) (d : dict Z Cliente) :
  well_keyed Cliente_id d -> well_keyed Cliente_id (upsert_all cs d).
Proof.
  revert d. induction cs as [|c cs IH]; intros d Hd; simpl; [done|].
  apply IH. by apply well_keyed_set.
Qed.

Lemma keyed_by_id_set {V} (id : V -> Z) (d : dict Z V) (v : V) :
  keyed_by_id id d -> keyed_by_id id (PyDict.set d (id v) v).
Proof.
  intros Hd k v'. destruct (decide (id v = k)) as [<-|Hne].
  - rewrite get_set_eq. by intros [= <-].
  - rewrite get_set_ne by done. apply Hd.
Qed.

Lemma upsert_all_keyed_by_id (cs : list Cliente) (d : dict Z Cliente) :
  keyed_by_id Cliente_id d -> keyed_by_id Cliente_id (upsert_all cs d).
Proof.
  revert d. induction cs as [|c cs IH]; intros d Hd; simpl; [done|].
  apply IH. by apply keyed_by_id_set.
Qed.

Section running.
Context `{Libraries}.

(** The import loop only ever assigns clients under their ids, one after the
    other, whether it ends well or not. *)
Lemma upload_rows_state (rows : iter row_dict) (st : State) :
  exists cs,
    snd (upload_rows rows st)
    = set_db_clientes (upsert_all cs (db_clientes st)) st.
Proof.
  revert st. induction rows as [|row rest IH|e]; intros st.
  - exists []. simpl. by rewrite set_db_clientes_same.
  - simpl. run_handler. destruct (Cliente_of_row row) as [c|e]; simpl.
    + destruct (IH (set_db_clientes
                      (PyDict.set (db_clientes st) (Cliente_id c) c) st))
        as [cs Hcs].
      exists (c :: cs). rewrite Hcs. simpl. by rewrite set_db_clientes_twice.
    + exists []. simpl. by rewrite set_db_clientes_same.
  - exists []. simpl. by rewrite set_db_clientes_same.
Qed.

Lemma upload_clients_csv_state (file : list Byte.byte) (st : State) :
  exists cs,
    snd (upload_clients_csv file st)
    = set_db_clientes (upsert_all cs (db_clientes st)) st.
Proof.
  unfold upload_clients_csv. destruct (decode file) as [content|].
  - destruct (upload_rows_state (DictReader (splitlines content)) st) as [cs Hcs].
    exists cs. rewrite <- Hcs. run_handler.
    by destruct (upload_rows _ st) as [[[]|e] st'].
  - exists []. simpl. by rewrite set_db_clientes_same.
Qed.

(** What a request can do to the stores. *)
Lemma after_cases (req : request) (st : State) :
  after req st = st
  \/ (exists email ud, PyDict.get (db_users st) email = None
        /\ after req st = set_db_users (PyDict.set (db_users st) email ud) st)
  \/ (exists cs, after req st = set_db_clientes (upsert_all cs (db_clientes st)) st)
  \/ (exists f, after req st
        = set_db_facturas (PyDict.set (db_facturas st) (Factura_id f) f) st)
  \/ (exists p, after req st
        = set_db_productos (PyDict.set (db_productos st) (Producto_id p) p) st).
Proof.
  destruct req; simpl;
    rewrite ?read_cliente_spec, ?read_factura_spec, ?read_producto_spec,
      ?create_cliente_spec, ?create_factura_spec, ?create_producto_spec,
      ?register_spec, ?export_clients_csv_spec.
  - destruct (PyDict.mem _ _) eqn:Hm; simpl; [by left|].
    destruct (bcrypt_hash _ _); simpl; [|by left].
    right; left. apply mem_false in Hm. eauto.
  - left. by rewrite token_route_spec.
  - by left.
  - destruct (PyDict.mem _ _); simpl; [by left|].
    do 2 right; left. by exists [cliente].
  - by left.
  - left. by destruct (PyDict.get _ _).
  - by left.
  - do 2 right; left. apply upload_clients_csv_state.
  - destruct (PyDict.mem _ _); simpl; [by left|]. do 3 right; left. eauto.
  - by left.
  - left. by destruct (PyDict.get _ _).
  - destruct (PyDict.mem _ _); simpl; [by left|]. do 4 right. eauto.
  - by left.
  - left. by destruct (PyDict.get _ _).
Qed.

Lemma after_keys_are_ids (req : request) (st : State) :
  keys_are_ids st -> keys_are_ids (after req st).
Proof.
  intros (Hc & Hf & Hp).
  destruct (after_cases req st)
    as [->|[(email & ud & _ & ->)|[[cs ->]|[[f ->]|[p ->]]]]];
    split_and!; simpl; auto using keyed_by_id_set, upsert_all_keyed_by_id.
Qed.

Lemma after_well_formed (req : request) (st : State) :
  well_formed st -> well_formed (after req st).
Proof.
  intros (Hu & Hc & Hf & Hp).
  destruct (after_cases req st)
    as [->|[(email & ud & _ & ->)|[[cs ->]|[[f ->]|[p ->]]]]];
    split_and!; simpl;
    auto using well_keyed_set, upsert_all_well_keyed, NoDup_keys_set.
Qed.

Lemma reachable_well_formed (st : State) : reachable st -> well_formed st.
Proof.
  induction 1 as [|st req _ IH]; [|by apply after_well_formed].
  repeat split; simpl; constructor.
Qed.

(** C10. In every state of a running process (the stores start empty and
    change only through the handlers, the creations and the CSV import among
    them), every key of the client, invoice and product registries is the id
    of the record stored under it; and every request preserves this,
    whatever it is and however it is answered. *)
Theorem keys_are_ids_invariant :
  (forall st, reachable st -> keys_are_ids st)
  /\ (forall st req, keys_are_ids st -> keys_are_ids (after req st)).
Proof.
  split; [|intros st req; apply after_keys_are_ids].
  induction 1 as [|st req _ IH]; [|by apply after_keys_are_ids].
  by repeat split.
Qed.

End running.

Lemma summary_lines (facturas : dict Z Factura) (d : dict Z Cliente) :
  Forall (fun kv => Cliente_id kv.2 = kv.1) d ->
  concat (map (fun kc => row_line (item_row facturas kc)) d)
  = concat (map (fun c => summary_row facturas c ++ newline) (PyDict.values d)).
Proof.
  induction 1 as [|[k c] d Hk _ IH]; simpl; [done|].
  by rewrite IH, (row_line_item_row facturas k c Hk).
Qed.

(** C3. In every state of a running process the export answers, without
    touching a store, a body whose text is the header row
    [ID,Documento,Nombre Completo,Cantidad de Facturas] followed by one row
    per stored client, in the order of the registry: the client's id, its
    document, its first and last name joined by one space, and the number of
    invoices whose [client_id] is the client's id.  In the scenario of the
    specification (client 1 created, then invoice 10 for client 1) the lines
    of the export are the header and [1,D1,Ana Lee,1]. *)
Theorem export_client_summary `{Libraries} :
  (forall st, reachable st ->
     exists r,
       export_clients_csv st = (Return r, st)
       /\ sent_text r = summary_text (db_clientes st) (db_facturas st))
  /\ (exists st1 st2 r,
        create_cliente ana empty_state = (Return ana, st1)
        /\ create_factura acme st1 = (Return acme, st2)
        /\ export_clients_csv st2 = (Return r, st2)
        /\ splitlines (sent_text r) = [header_row; py "1,D1,Ana Lee,1"]).
Proof.
  split.
  - intros st Hst. apply reachable_well_formed in Hst as (_ & [Hc _] & _).
    eexists. split; [apply export_clients_csv_spec|].
    unfold sent_text, summary_text. simpl.
    rewrite chunks_awaits. simpl. rewrite app_nil_r.
    by rewrite (summary_lines _ _ Hc).
  - do 3 eexists. split_and!; [reflexivity..|]. vm_compute. reflexivity.
Qed.

(** The export of the scenario, through the general statement. *)
Lemma export_client_summary_example :
  exists r,
    export_clients_csv scenario_state = (Return r, scenario_state)
    /\ sent_text r
       = summary_text (db_clientes scenario_state) (db_facturas scenario_state).
Proof.
  apply (proj1 (@export_client_summary sample_libraries)).
  apply (@reachable_step sample_libraries _ (POST_facturas acme)).
  apply (@reachable_step sample_libraries _ (POST_clientes ana)).
  apply reachable_start.
Defined.

(** The invariant in a state with two clients, an invoice and a product, and
    across one more request. *)
Lemma keys_are_ids_invariant_example :
  keys_are_ids busy_state
  /\ keys_are_ids
       (@after sample_libraries (POST_clientes (mkCliente 3 [] [] [] [] []))
          busy_state).
Proof.
  assert (@reachable sample_libraries busy_state) as Hbusy.
  { apply (@reachable_step sample_libraries _ (POST_productos widget)).
    apply (@reachable_step sample_libraries _ (POST_clientes bob)).
    apply (@reachable_step sample_libraries _ (POST_facturas acme)).
    apply (@reachable_step sample_libraries _ (POST_clientes ana)).
    apply reachable_start. }
  pose proof (@keys_are_ids_invariant sample_libraries) as [Hreach Hstep].
  split; [|apply Hstep]; apply Hreach, Hbusy.
Defined.

(** C8, as the specification has it, fails: with two clients stored the body
    of the export sends one chunk, the whole text, not a chunk per row. *)
Lemma export_not_one_chunk_per_row :
  exists r,
    export_clients_csv busy_state = (Return r, busy_state)
    /\ chunks (body r)
       = [header_row ++ newline ++ py "1,D1,Ana Lee,1" ++ newline
          ++ py "2,D2,Bob Roe,0" ++ newline]
    /\ ~ one_chunk_per_row busy_state r.
Proof.
  eexists. split_and!; [reflexivity | vm_compute; reflexivity |].
  unfold one_chunk_per_row. vm_compute. lia.
Qed.

(** C8, amended.  The body of the export is produced by a generator that
    builds the whole text first, suspending once after each data row, and
    then sends it as one single chunk: header and rows together. *)
Theorem export_suspends_per_row_sends_once (st : State) :
  exists r,
    export_clients_csv st = (Return r, st)
    /\ body r
       = replicate (length (db_clientes st)) Await_sleep ++ [Yield (sent_text r)]
    /\ chunks (body r) = [sent_text r].
Proof.
  eexists. split; [apply export_clients_csv_spec|].
  unfold sent_text. simpl. rewrite chunks_awaits. simpl.
  by rewrite app_nil_r.
Qed.

(** * The import *)

Lemma keys_fold_set {K V A} `{EqDecision K} (f : A -> K) (g : A -> V)
    (step : dict K V -> A -> dict K V) (l : list A) (d : dict K V) (k : K) :
  (forall d a, step d a = PyDict.set d (f a) (g a)) ->
  k ∈ PyDict.keys (fold_left step l d) ->
  k ∈ PyDict.keys d \/ k ∈ map f l.
Proof.
  intros Hstep. revert d. induction l as [|a l IH]; intros d; simpl; [by left|].
  intros Hk. apply IH in Hk as [Hk|Hk]; rewrite ?Hstep in Hk.
  - rewrite keys_set in Hk. destruct (PyDict.mem (f a) d); [by left|].
    apply elem_of_app in Hk as [Hk|Hk]; [by left|].
    apply list_elem_of_singleton in Hk as ->. right. apply list_elem_of_here.
  - right. by apply list_elem_of_further.
Qed.

(** The keys of a row dictionary are names of the header, or the rest key. *)
Lemma make_row_keys (fieldnames row : list pystr) (name : pystr) :
  Some name ∈ PyDict.keys (make_row fieldnames row) -> name ∈ fieldnames.
Proof.
  unfold make_row.
  match goal with
  | |- context [fold_left ?f (zip fieldnames row) ?e] =>
      set (d := fold_left f (zip fieldnames row) e)
  end.
  assert (Some name ∈ PyDict.keys d -> name ∈ fieldnames) as Hd.
  { subst d. intros Hk.
    apply (keys_fold_set (fun kv : pystr * pystr => Some kv.1)
             (fun kv => CStr kv.2)) in Hk as [Hk|Hk]; [| |by intros ? [??]].
    - by apply elem_of_nil in Hk.
    - apply list_elem_of_fmap in Hk as ([k v] & [= ->] & Hkv).
      by apply elem_of_zip_l in Hkv. }
  destruct (decide (length fieldnames < length row)%nat).
  - rewrite keys_set. destruct (PyDict.mem None d); [done|].
    rewrite elem_of_app, list_elem_of_singleton. intros [?|?]; [auto|done].
  - destruct (decide (length row < length fieldnames)%nat); [|done].
    intros Hk.
    apply (keys_fold_set (fun key : pystr => Some key) (fun _ => CNone))
      in Hk as [Hk|Hk]; [auto| |done].
    apply list_elem_of_fmap in Hk as (k & [= ->] & Hk).
    by apply subseteq_drop in Hk.
Qed.

Lemma upsert_all_snoc (cs : list Cliente) (c : Cliente) (d : dict Z Cliente) :
  upsert_all (cs ++ [c]) d = PyDict.set (upsert_all cs d) (Cliente_id c) c.
Proof. unfold upsert_all. by rewrite fold_left_app. Qed.

(** The upsert, key by key. *)
Lemma get_upsert_all (cs : list Cliente) (d : dict Z Cliente) (k : Z) :
  PyDict.get (upsert_all cs d) k
  = match last_with_id k cs with
    | Some c => Some c
    | None => PyDict.get d k
    end.
Proof.
  unfold last_with_id.
  induction cs as [|c cs IH] using rev_ind; [done|].
  rewrite upsert_all_snoc, filter_app, filter_cons, filter_nil.
  destruct (decide (Cliente_id c = k)) as [<-|Hne].
  - by rewrite get_set_eq, last_snoc.
  - by rewrite get_set_ne, app_nil_r.
Qed.

Section import.
Context `{Libraries}.

(** A row makes a client exactly when none of its keys is the rest key and
    each field of the model has its cell, the one of [id] an integer. *)
Lemma Cliente_of_row_Return (row : row_dict) (c : Cliente) :
  Cliente_of_row row = Return c <->
  PyDict.mem None row = false
  /\ int_field row (py "id") = Some (Cliente_id c)
  /\ str_field row (py "documento") = Some (Cliente_documento c)
  /\ str_field row (py "first_name") = Some (Cliente_first_name c)
  /\ str_field row (py "last_name") = Some (Cliente_last_name c)
  /\ str_field row (py "email") = Some (Cliente_email c)
  /\ str_field row (py "password") = Some (Cliente_password c).
Proof.
  unfold Cliente_of_row. destruct (PyDict.mem None row).
  { split; [discriminate|]. by intros [? _]. }
  destruct (int_field row (py "id")), (str_field row (py "documento")),
    (str_field row (py "first_name")), (str_field row (py "last_name")),
    (str_field row (py "email")), (str_field row (py "password"));
    (split; [intros [= <-] || discriminate | intros (_ & ? & ? & ? & ? & ? & ?)]);
    try discriminate; simplify_eq; try done.
  by destruct c.
Qed.

Lemma str_field_key (row : row_dict) (name s : pystr) :
  str_field row name = Some s -> Some name ∈ PyDict.keys row.
Proof.
  unfold str_field. intros Hs.
  destruct (decide (Some name ∈ PyDict.keys row)) as [|Hn]; [done|].
  apply get_None_keys in Hn. by rewrite Hn in Hs.
Qed.

(** The header must spell every field of the model, and a row may not be
    longer than the header. *)
Lemma Cliente_of_row_header (fieldnames row : list pystr) (c : Cliente) :
  Cliente_of_row (make_row fieldnames row) = Return c ->
  Forall (fun name => name ∈ fieldnames) Cliente_fields
  /\ (length row <= length fieldnames)%nat.
Proof.
  intros Hc. apply Cliente_of_row_Return in Hc
    as (Hnone & Hid & Hdoc & Hfirst & Hlast & Hemail & Hpass).
  split.
  - unfold int_field in Hid.
    destruct (str_field _ (py "id")) as [s|] eqn:Hids; [|done].
    repeat constructor; eapply make_row_keys, str_field_key; eassumption.
  - apply mem_false in Hnone. unfold make_row in Hnone.
    destruct (decide (length fieldnames < length row)%nat); [|lia].
    by rewrite get_set_eq in Hnone.
Qed.

Lemma upload_rows_all (rows : iter row_dict) (cs : list Cliente) (st : State) :
  iter_end rows = None ->
  Forall2 (fun row c => Cliente_of_row row = Return c) (iter_items rows) cs ->
  upload_rows rows st
  = (Return tt, set_db_clientes (upsert_all cs (db_clientes st)) st).
Proof.
  revert cs st. induction rows as [|row rest IH|e]; intros cs st Hend Hall.
  - apply Forall2_nil_inv_l in Hall as ->. simpl.
    by rewrite set_db_clientes_same.
  - simpl in Hall. apply Forall2_cons_inv_l in Hall as (c & cs' & Hc & Hall & ->).
    simpl. run_handler. rewrite Hc. simpl.
    rewrite (IH cs' _ Hend Hall). simpl. by rewrite set_db_clientes_twice.
  - discriminate.
Qed.

(** What the import can raise: a cell that does not fit the model, a row
    longer than the header, or what the reader raised. *)
Lemma upload_rows_raises (rows : iter row_dict) (st : State) (e : exn) :
  fst (upload_rows rows st) = Raise e ->
  e = TypeError \/ (exists fs, e = ValidationError fs) \/ iter_end rows = Some e.
Proof.
  revert st. induction rows as [|row rest IH|e']; intros st; simpl.
  - discriminate.
  - run_handler. unfold Cliente_of_row.
    destruct (PyDict.mem None row); [intros [= <-]; by left|].
    repeat match goal with
           | |- context [match ?x with Some _ => _ | None => _ end] =>
               destruct x; simpl
           end;
      try (intros [= <-]; right; left; by eexists).
    apply IH.
  - intros [= <-]. by do 2 right.
Qed.

Lemma reader_rows_end (r : reader) (lines : list pystr) :
  iter_end (reader_rows r lines) = None
  \/ iter_end (reader_rows r lines) = Some CsvError.
Proof.
  revert r. induction lines as [|line lines IH]; intros r; simpl.
  - destruct (_ || _); by left.
  - destruct (parse_line line r) as [r'|]; [|by right].
    destruct (bool_decide _); simpl; apply IH.
Qed.

Lemma dict_rows_end (fieldnames : list pystr) (rows : iter (list pystr)) :
  iter_end (dict_rows fieldnames rows) = iter_end rows.
Proof.
  induction rows as [|row rest IH|e]; simpl; [done| |done].
  by destruct row.
Qed.

Lemma DictReader_end (lines : list pystr) :
  iter_end (DictReader lines) = None
  \/ iter_end (DictReader lines) = Some CsvError.
Proof.
  unfold DictReader, csv_reader.
  pose proof (reader_rows_end parse_reset lines) as Hend.
  destruct (reader_rows parse_reset lines) as [|fieldnames rest|e]; simpl in *;
    [by left| |done].
  by rewrite dict_rows_end.
Qed.

Lemma upload_clients_csv_raises (file : list Byte.byte) (st : State) (e : exn) :
  fst (upload_clients_csv file st) = Raise e ->
  e = UnicodeDecodeError \/ e = CsvError \/ e = TypeError
  \/ exists fs, e = ValidationError fs.
Proof.
  unfold upload_clients_csv. destruct (decode file) as [text|].
  - run_handler.
    destruct (upload_rows (DictReader (splitlines text)) st) as [[[]|e'] st']
      eqn:Hrows; simpl; [discriminate|].
    intros [= <-].
    destruct (upload_rows_raises (DictReader (splitlines text)) st e')
      as [->|[[fs ->]|Hend]]; [by rewrite Hrows|auto|eauto|].
    destruct (DictReader_end (splitlines text)) as [Hd|Hd];
      rewrite Hd in Hend; [discriminate|].
    injection Hend as <-. auto.
  - intros [= <-]. by left.
Qed.

End import.

(** * The round trip: the export read back by the import *)

(** ** The first character of [str(n)] *)

Lemma pretty_N_char_plain (d : N) : plain (N_of_ascii (pretty_N_char d)) = true.
Proof. unfold pretty_N_char. by repeat case_match. Qed.

Lemma pretty_N_go_head (x : N) (s : string) :
  (0 < x)%N ->
  exists d s', pretty_N_go x s = String (pretty_N_char d) s'.
Proof.
  revert s. induction (N.lt_wf_0 x) as [x _ IH]; intros s Hx.
  rewrite pretty_N_go_step by done.
  destruct (decide (x `div` 10 = 0)%N) as [->|Hq].
  - rewrite pretty_N_go_0. eauto.
  - apply IH; [apply N.div_lt; lia | by apply N.neq_0_lt_0].
Qed.

Lemma py_String (a : ascii) (s : string) : py (String a s) = N_of_ascii a :: py s.
Proof. reflexivity. Qed.

Lemma str_int_head (n : Z) :
  exists c s, str_int n = c :: s /\ plain c = true.
Proof.
  unfold str_int, pretty, pretty_Z. destruct n as [|p|p].
  - by exists 48%N, [].
  - unfold pretty, pretty_positive, pretty, pretty_N.
    rewrite decide_False by done.
    destruct (pretty_N_go_head (N.pos p) "") as (d & s' & ->); [lia|].
    rewrite py_String. eauto using pretty_N_char_plain.
  - by exists 45%N, (py (pretty p)).
Qed.

(** ** Splitting the exported text into lines *)

Lemma splitlines_from_line (h line rest : pystr) :
  forallb (fun c => negb (is_linebreak c)) h = true ->
  splitlines_from line (h ++ LF :: rest) = (line ++ h) :: splitlines rest.
Proof.
  revert line. induction h as [|c h IH]; intros line Hh; simpl.
  - rewrite app_nil_r. by destruct rest.
  - simpl in Hh. apply andb_prop in Hh as [Hc Hh].
    apply negb_true_iff in Hc. rewrite Hc, IH by done.
    by rewrite <- app_assoc.
Qed.

Lemma splitlines_from_head (c : codepoint) (line s : pystr) :
  exists l ls, splitlines_from (c :: line) s = (c :: l) :: ls.
Proof.
  revert line. induction s as [|c' s IH]; intros line; simpl; [eauto|].
  destruct (is_linebreak c'); [eauto|]. apply (IH (line ++ [c'])).
Qed.

Lemma splitlines_plain (c : codepoint) (s : pystr) :
  plain c = true -> exists l ls, splitlines (c :: s) = (c :: l) :: ls.
Proof.
  intros Hc. unfold splitlines. simpl.
  unfold plain in Hc. destruct (is_linebreak c); [done|].
  apply splitlines_from_head.
Qed.

(** ** The parser once a row has begun *)

Lemma plain_not_crnl (c : codepoint) : plain c = true -> is_crnl c = false.
Proof.
  unfold plain, is_crnl, is_linebreak, LF, CR. intros Hc.
  apply andb_prop in Hc as [Hc _]. apply andb_prop in Hc as [Hc _].
  apply negb_true_iff, bool_decide_eq_false in Hc.
  apply orb_false_intro; apply bool_decide_eq_false; intros ->; apply Hc;
    repeat constructor.
Qed.

Lemma parse_first_char (c : codepoint) :
  plain c = true ->
  parse_process_char (Some c) parse_reset = Some (mkReader [] [c] IN_FIELD).
Proof.
  intros Hc. pose proof (plain_not_crnl c Hc) as Hcrnl.
  unfold plain in Hc. apply andb_prop in Hc as [Hc Hd].
  apply andb_prop in Hc as [_ Hq].
  apply negb_true_iff in Hq, Hd.
  unfold parse_process_char, start_field. simpl. by rewrite Hcrnl, Hq, Hd.
Qed.

Lemma snoc_not_nil {A} (l : list A) (x : A) : l ++ [x] <> [].
Proof. by destruct l. Qed.

Lemma started_fields (r : reader) : fields r <> [] -> started r = true.
Proof.
  intros Hf. unfold started. by rewrite bool_decide_eq_true_2.
Qed.

(** Unfolds one step of the parser into its cases. *)
Ltac parser_cases :=
  unfold parse_process_char, start_field, parse_add_char, set_state,
    parse_save_field; simpl;
  repeat (case_match; simpl; try done);
  intros; simplify_eq/=.

Lemma started_char (c : codepoint) (r r' : reader) :
  started r = true ->
  parse_process_char (Some c) r = Some r' -> started r' = true.
Proof.
  destruct r as [fs f s]. unfold started at 1. simpl. intros Hr.
  destruct s; simpl in Hr; rewrite ?orb_true_r, ?orb_false_r in Hr;
    try apply bool_decide_eq_true in Hr;
    parser_cases;
    solve [ done
          | apply started_fields; simpl; auto using snoc_not_nil
          | unfold started; simpl; apply orb_true_r ].
Qed.

Lemma started_eol (r r' : reader) :
  started r = true ->
  parse_process_char None r = Some r' ->
  (state r' = START_RECORD /\ fields r' <> []) \/ state r' = IN_QUOTED_FIELD.
Proof.
  destruct r as [fs f s]. unfold started at 1. simpl. intros Hr.
  destruct s; simpl in Hr; rewrite ?orb_true_r, ?orb_false_r in Hr;
    try apply bool_decide_eq_true in Hr;
    parser_cases; auto using snoc_not_nil.
Qed.

Lemma started_line (line : pystr) (r r' : reader) :
  started r = true ->
  parse_line line r = Some r' ->
  (state r' = START_RECORD /\ fields r' <> []) \/ state r' = IN_QUOTED_FIELD.
Proof.
  revert r. induction line as [|c line IH]; intros r Hr; simpl.
  - by apply started_eol.
  - destruct (parse_process_char (Some c) r) as [r1|] eqn:Hc; [|done].
    simpl. apply IH. by apply (started_char c r).
Qed.

Lemma blank_row (row : list pystr) (rest : iter (list pystr)) :
  row <> [] -> blank (Next row rest) = false.
Proof. by destruct row. Qed.

(** A row that has begun is given, or the reader raises: the input cannot
    end on nothing but empty rows. *)
Lemma reader_rows_started (lines : list pystr) (r : reader) :
  state r = IN_QUOTED_FIELD -> blank (reader_rows r lines) = false.
Proof.
  revert r. induction lines as [|line lines IH]; intros r Hr; simpl.
  - rewrite Hr, orb_true_r. apply blank_row, snoc_not_nil.
  - destruct (parse_line line r) as [r'|] eqn:Hline; [|done].
    destruct (started_line line r r') as [[-> Hf]| Hq]; [|done| |].
    + unfold started. by rewrite Hr, orb_true_r.
    + by apply blank_row.
    + rewrite Hq. simpl. by apply IH.
Qed.

Lemma reader_rows_plain (c : codepoint) (line : pystr) (lines : list pystr) :
  plain c = true -> blank (reader_rows parse_reset ((c :: line) :: lines)) = false.
Proof.
  intros Hc. simpl. rewrite (parse_first_char c Hc). simpl.
  destruct (parse_line line _) as [r'|] eqn:Hline; [|done].
  apply started_line in Hline as [[-> Hf]| Hq]; [| |done].
  - by apply blank_row.
  - rewrite Hq. simpl. by apply reader_rows_started.
Qed.

(** ** The header of the export against the fields of the model *)

Lemma parse_header_row :
  parse_line header_row parse_reset = Some (mkReader headers [] START_RECORD).
Proof. vm_compute. reflexivity. Qed.

Lemma DictReader_header_row (lines : list pystr) :
  DictReader (header_row :: lines)
  = dict_rows headers (reader_rows parse_reset lines).
Proof.
  unfold DictReader, csv_reader.
  change (reader_rows parse_reset (header_row :: lines))
    with (match parse_line header_row parse_reset with
          | None => Throw CsvError
          | Some r' =>
              if bool_decide (state r' = START_RECORD)
              then Next (fields r') (reader_rows parse_reset lines)
              else reader_rows r' lines
          end).
  by rewrite parse_header_row.
Qed.

Lemma fields_not_in_headers : Forall (fun name => name ∉ headers) Cliente_fields.
Proof. apply (bool_decide_unpack _). by vm_compute. Qed.

Section round_trip.
Context `{Libraries}.

(** No row read under the header of the export makes a client: none of the
    field names of the model is in that header. *)
Lemma Cliente_of_exported_row (row : list pystr) :
  Cliente_of_row (make_row headers row) = Raise TypeError
  \/ Cliente_of_row (make_row headers row) = Raise (ValidationError Cliente_fields).
Proof.
  unfold Cliente_of_row.
  destruct (PyDict.mem None (make_row headers row)); [by left|right].
  assert (forall name, name ∈ Cliente_fields ->
            str_field (make_row headers row) name = None) as Hnone.
  { intros name Hname.
    destruct (str_field (make_row headers row) name) as [s|] eqn:Hs; [|done].
    apply str_field_key, make_row_keys in Hs.
    pose proof fields_not_in_headers as Hall.
    rewrite Forall_forall in Hall. by destruct (Hall name Hname). }
  unfold int_field.
  rewrite !Hnone by (unfold Cliente_fields; repeat constructor).
  reflexivity.
Qed.

(** Under the header of the export the import stores nothing: it ends well
    when there is no row to read, and raises at the first row otherwise. *)
Lemma upload_exported_rows (rows : iter (list pystr)) (st : State) :
  (forall e, iter_end rows = Some e -> e = CsvError) ->
  if blank rows
  then upload_rows (dict_rows headers rows) st = (Return tt, st)
  else exists e,
      upload_rows (dict_rows headers rows) st = (Raise e, st)
      /\ e ∈ [ValidationError Cliente_fields; TypeError; CsvError].
Proof.
  induction rows as [|row rest IH|e]; intros Hend; simpl.
  - done.
  - destruct row as [|cell row]; [by apply IH|].
    simpl. run_handler.
    destruct (Cliente_of_exported_row (cell :: row)) as [-> | ->]; simpl;
      eexists; (split; [reflexivity|]); repeat constructor.
  - exists e. split; [done|]. rewrite (Hend e eq_refl). repeat constructor.
Qed.

End round_trip.

Lemma exported_text_spec (st : State) :
  exported_text st
  = header_row ++ LF ::
      concat (map (fun kc => row_line (item_row (db_facturas st) kc))
                (db_clientes st)).
Proof.
  unfold exported_text. rewrite export_clients_csv_spec. unfold sent_text.
  simpl. rewrite chunks_awaits. simpl. by rewrite app_nil_r.
Qed.

Lemma splitlines_exported_text (st : State) :
  splitlines (exported_text st)
  = header_row ::
      splitlines (concat (map (fun kc => row_line (item_row (db_facturas st) kc))
                            (db_clientes st))).
Proof.
  rewrite exported_text_spec. unfold splitlines at 1.
  by rewrite splitlines_from_line.
Qed.

(** The rows of the export are blank only when there is no client. *)
Lemma exported_rows_blank (st : State) :
  blank (reader_rows parse_reset
           (splitlines (concat (map (fun kc => row_line (item_row (db_facturas st) kc))
                                  (db_clientes st)))))
  = bool_decide (db_clientes st = []).
Proof.
  destruct (db_clientes st) as [|[k c] d]; [done|].
  rewrite bool_decide_eq_false_2 by done.
  simpl. unfold row_line at 1, item_row at 1. simpl.
  destruct (str_int_head (Cliente_id c)) as (ch & s & -> & Hch).
  simpl.
  match goal with
  | |- context [splitlines (ch :: ?rest)] =>
      destruct (splitlines_plain ch rest Hch) as (l & ls & ->)
  end.
  by apply reader_rows_plain.
Qed.

Lemma same_clients_nil (d : dict Z Cliente) : same_clients [] d <-> d = [].
Proof.
  split; [|by intros ->].
  destruct d as [|[k c] d]; [done|]. intros Hsame.
  unfold same_clients, client_facts in Hsame. simpl in Hsame.
  edestruct (elem_of_nil (A := Z * pystr * pystr)) as [Hnil _].
  exfalso. apply Hnil, Hsame, list_elem_of_here.
Qed.

Lemma reader_rows_end_csv (r : reader) (lines : list pystr) (e : exn) :
  iter_end (reader_rows r lines) = Some e -> e = CsvError.
Proof.
  intros He. destruct (reader_rows_end r lines) as [Hr|Hr];
    rewrite Hr in He; by simplify_eq.
Qed.

Section round_trip_theorem.
Context `{Libraries}.

(** C2, amended.  The import of the CSV that the export produced stores no
    client and changes no store, whatever the registry exported and wherever
    it is imported: the exported header has none of the field names of the
    client model.  When the exported registry is empty the import succeeds,
    having read no row; otherwise it fails at the first data row, with a
    validation error that names every field of the model, or with a type
    error or a CSV error when the cells of that row make it longer than the
    header or too large.  So a round trip into an empty registry reproduces
    the clients exactly when there are none. *)
Theorem import_of_export_stores_nothing (st st0 : State) (file : list Byte.byte) :
  decode file = Some (exported_text st) ->
  snd (upload_clients_csv file st0) = st0
  /\ (db_clientes st = [] ->
      fst (upload_clients_csv file st0)
      = Return [(py "message", VStr (py "Clientes cargados exitosamente"))])
  /\ (db_clientes st <> [] ->
      exists e,
        fst (upload_clients_csv file st0) = Raise e
        /\ e ∈ [ValidationError Cliente_fields; TypeError; CsvError])
  /\ (same_clients (db_clientes (snd (upload_clients_csv file empty_state)))
        (db_clientes st)
      <-> db_clientes st = []).
Proof.
  intros Hdec.
  assert (forall st1,
    if bool_decide (db_clientes st = [])
    then upload_clients_csv file st1
         = (Return [(py "message", VStr (py "Clientes cargados exitosamente"))], st1)
    else exists e,
        upload_clients_csv file st1 = (Raise e, st1)
        /\ e ∈ [ValidationError Cliente_fields; TypeError; CsvError]) as Hrun.
  { intros st1. unfold upload_clients_csv.
    rewrite Hdec, splitlines_exported_text, DictReader_header_row.
    rewrite <- exported_rows_blank.
    match goal with
    | |- context [blank ?rows] =>
        pose proof (upload_exported_rows rows st1) as Hrows;
        destruct (blank rows)
    end.
    - run_handler. rewrite Hrows; [done|].
      intros e. apply reader_rows_end_csv.
    - destruct Hrows as (e & Hrows & He).
      { intros e. apply reader_rows_end_csv. }
      exists e. split; [|done]. run_handler. by rewrite Hrows. }
  split_and!.
  - specialize (Hrun st0). destruct (bool_decide _).
    + by rewrite Hrun.
    + destruct Hrun as (e & -> & _). done.
  - intros Hnil. specialize (Hrun st0).
    rewrite bool_decide_eq_true_2 in Hrun by done. by rewrite Hrun.
  - intros Hne. specialize (Hrun st0).
    rewrite bool_decide_eq_false_2 in Hrun by done.
    destruct Hrun as (e & -> & He). eauto.
  - assert (snd (upload_clients_csv file empty_state) = empty_state) as ->.
    { specialize (Hrun empty_state). destruct (bool_decide _).
      - by rewrite Hrun.
      - by destruct Hrun as (e & -> & _). }
    apply same_clients_nil.
Qed.

End round_trip_theorem.

(** The export of the scenario, imported. *)
Lemma import_of_export_stores_nothing_example :
  snd (@upload_clients_csv sample_libraries
         (ascii_bytes (exported_text scenario_state)) busy_state)
  = busy_state
  /\ exists e,
      fst (@upload_clients_csv sample_libraries
             (ascii_bytes (exported_text scenario_state)) busy_state)
      = Raise e
      /\ e ∈ [ValidationError Cliente_fields; TypeError; CsvError].
Proof.
  destruct (@import_of_export_stores_nothing sample_libraries scenario_state
              busy_state (ascii_bytes (exported_text scenario_state)))
    as (Hst & _ & Hfail & _).
  - vm_compute. reflexivity.
  - split; [exact Hst|]. apply Hfail. discriminate.
Defined.

(** C2, as the specification has it, fails: the client of the scenario is
    exported, and the import of that very file, into an empty registry or
    into the one it came from, is refused with a validation error that names
    all six fields; the empty registry stays empty, so not even the set of
    ids is reproduced. *)
Lemma round_trip_does_not_reproduce :
  let file := ascii_bytes (exported_text scenario_state) in
  decode file = Some (exported_text scenario_state)
  /\ @upload_clients_csv sample_libraries file empty_state
     = (Raise (ValidationError Cliente_fields), empty_state)
  /\ @upload_clients_csv sample_libraries file scenario_state
     = (Raise (ValidationError Cliente_fields), scenario_state)
  /\ ~ same_clients
         (db_clientes (snd (@upload_clients_csv sample_libraries file empty_state)))
         (db_clientes scenario_state).
Proof.
  split_and!; [by vm_compute..|].
  intros Hsame. apply same_clients_nil in Hsame. discriminate.
Qed.

(** * The user store on a concrete registration *)

(** A first registration gets id 1; the same e-mail again is refused. *)
Lemma register_conflict_or_next_id_example :
  @register sample_libraries (py "salt") carol empty_state
  = (Return (mkUser 1 (py "carol@x.com") (py "salt$secret")), carol_state)
  /\ @register sample_libraries (py "pepper")
       (mkUserCreate (py "carol@x.com") (py "other")) carol_state
     = (Raise (HTTPException 400 (py "Email already registered")), carol_state).
Proof.
  pose proof (@register_conflict_or_next_id sample_libraries (py "salt") carol
                empty_state) as [_ Hnew].
  destruct (Hnew (py "salt$secret")) as (st' & Hrun & _); [reflexivity..|].
  split; [reflexivity|].
  apply (@register_conflict_or_next_id sample_libraries). reflexivity.
Defined.

(** * More on the registries *)

Section dict_more.
Context {K V : Type} `{EqDecision K}.
Implicit Types (d : dict K V) (k : K) (v : V).

Lemma get_elem_NoDup d k v :
  NoDup (PyDict.keys d) -> (k, v) ∈ d -> PyDict.get d k = Some v.
Proof.
  induction d as [|[k' v'] d IH]; simpl; intros Hnd Hin.
  - by apply elem_of_nil in Hin.
  - apply NoDup_cons in Hnd as [Hk' Hnd].
    apply elem_of_cons in Hin as [[= -> ->]|Hin].
    + by rewrite decide_True.
    + destruct (decide (k' = k)) as [->|Hne]; [|auto].
      destruct Hk'. apply list_elem_of_fmap. by exists (k, v).
Qed.

Lemma values_app d1 d2 :
  PyDict.values (d1 ++ d2) = PyDict.values d1 ++ PyDict.values d2.
Proof. apply map_app. Qed.

End dict_more.

Lemma well_keyed_values {V} (id : V -> Z) (d : dict Z V) (v : V) :
  well_keyed id d -> v ∈ PyDict.values d <-> PyDict.get d (id v) = Some v.
Proof.
  intros [Hall Hnd]. split.
  - intros Hv. apply list_elem_of_fmap in Hv as ([k v'] & -> & Hin).
    rewrite Forall_forall in Hall. pose proof (Hall _ Hin) as Hk. simpl in *.
    rewrite Hk. by apply get_elem_NoDup.
  - intros Hg. apply get_Some_elem in Hg.
    apply list_elem_of_fmap. by exists (id v, v).
Qed.

Lemma well_keyed_ids_NoDup {V} (id : V -> Z) (d : dict Z V) :
  well_keyed id d -> NoDup (map id (PyDict.values d)).
Proof.
  intros [Hall Hnd]. unfold PyDict.values, PyDict.keys in *.
  rewrite map_map. erewrite map_ext_Forall; [exact Hnd|].
  eapply Forall_impl; [exact Hall|]. by intros [k v].
Qed.

(** X1. Creating a record under an id that is not stored succeeds in each
    registry: the record is returned as it was sent and becomes the last
    item of its registry; get-by-id then returns it; every other id is
    answered as before; the other three stores are untouched.  An invoice is
    accepted whatever its [client_id]: no client has to exist. *)
Theorem create_fresh_id_stores (st : State) :
  (forall c : Cliente,
     PyDict.mem (Cliente_id c) (db_clientes st) = false ->
     exists st',
       create_cliente c st = (Return c, st')
       /\ db_clientes st' = db_clientes st ++ [(Cliente_id c, c)]
       /\ read_cliente (Cliente_id c) st' = (Return c, st')
       /\ (forall k, k <> Cliente_id c ->
             fst (read_cliente k st') = fst (read_cliente k st))
       /\ db_users st' = db_users st /\ db_facturas st' = db_facturas st
       /\ db_productos st' = db_productos st)
  /\ (forall f : Factura,
     PyDict.mem (Factura_id f) (db_facturas st) = false ->
     exists st',
       create_factura f st = (Return f, st')
       /\ db_facturas st' = db_facturas st ++ [(Factura_id f, f)]
       /\ read_factura (Factura_id f) st' = (Return f, st')
       /\ (forall k, k <> Factura_id f ->
             fst (read_factura k st') = fst (read_factura k st))
       /\ db_users st' = db_users st /\ db_clientes st' = db_clientes st
       /\ db_productos st' = db_productos st)
  /\ (forall p : Producto,
     PyDict.mem (Producto_id p) (db_productos st) = false ->
     exists st',
       create_producto p st = (Return p, st')
       /\ db_productos st' = db_productos st ++ [(Producto_id p, p)]
       /\ read_producto (Producto_id p) st' = (Return p, st')
       /\ (forall k, k <> Producto_id p ->
             fst (read_producto k st') = fst (read_producto k st))
       /\ db_users st' = db_users st /\ db_clientes st' = db_clientes st
       /\ db_facturas st' = db_facturas st).
Proof.
  split_and!; intros r Hm.
  - rewrite create_cliente_spec, Hm. eexists. split; [reflexivity|].
    apply mem_false in Hm. split_and!; try done.
    + by apply set_fresh.
    + rewrite read_cliente_spec. simpl. by rewrite get_set_eq.
    + intros k Hk. rewrite !read_cliente_spec. simpl.
      rewrite get_set_ne by done. by destruct (PyDict.get _ k).
  - rewrite create_factura_spec, Hm. eexists. split; [reflexivity|].
    apply mem_false in Hm. split_and!; try done.
    + by apply set_fresh.
    + rewrite read_factura_spec. simpl. by rewrite get_set_eq.
    + intros k Hk. rewrite !read_factura_spec. simpl.
      rewrite get_set_ne by done. by destruct (PyDict.get _ k).
  - rewrite create_producto_spec, Hm. eexists. split; [reflexivity|].
    apply mem_false in Hm. split_and!; try done.
    + by apply set_fresh.
    + rewrite read_producto_spec. simpl. by rewrite get_set_eq.
    + intros k Hk. rewrite !read_producto_spec. simpl.
      rewrite get_set_ne by done. by destruct (PyDict.get _ k).
Qed.

Lemma read_clientes_spec (st : State) :
  read_clientes st = (Return (PyDict.values (db_clientes st)), st).
Proof. reflexivity. Qed.

Lemma read_facturas_spec (st : State) :
  read_facturas st = (Return (PyDict.values (db_facturas st)), st).
Proof. reflexivity. Qed.

Lemma read_productos_spec (st : State) :
  read_productos st = (Return (PyDict.values (db_productos st)), st).
Proof. reflexivity. Qed.

(** X2. The listings follow the order of creation: after a record is created
    under a fresh id, the listing of its registry is the listing before with
    the new record added at the end; after a refused creation it is the
    listing before.  Listing changes no store. *)
Theorem listing_grows_at_the_end (st : State) :
  (forall c, read_clientes (snd (create_cliente c st))
             = (Return (PyDict.values (db_clientes st)
                        ++ if PyDict.mem (Cliente_id c) (db_clientes st)
                           then [] else [c]),
                snd (create_cliente c st)))
  /\ (forall f, read_facturas (snd (create_factura f st))
             = (Return (PyDict.values (db_facturas st)
                        ++ if PyDict.mem (Factura_id f) (db_facturas st)
                           then [] else [f]),
                snd (create_factura f st)))
  /\ (forall p, read_productos (snd (create_producto p st))
             = (Return (PyDict.values (db_productos st)
                        ++ if PyDict.mem (Producto_id p) (db_productos st)
                           then [] else [p]),
                snd (create_producto p st))).
Proof.
  split_and!; intros r.
  - rewrite read_clientes_spec, create_cliente_spec.
    destruct (PyDict.mem _ _) eqn:Hm; simpl; [by rewrite app_nil_r|].
    apply mem_false in Hm. by rewrite set_fresh, values_app.
  - rewrite read_facturas_spec, create_factura_spec.
    destruct (PyDict.mem _ _) eqn:Hm; simpl; [by rewrite app_nil_r|].
    apply mem_false in Hm. by rewrite set_fresh, values_app.
  - rewrite read_productos_spec, create_producto_spec.
    destruct (PyDict.mem _ _) eqn:Hm; simpl; [by rewrite app_nil_r|].
    apply mem_false in Hm. by rewrite set_fresh, values_app.
Qed.

Section registries_running.
Context `{Libraries}.

(** X3. In every state of a running process the listing of a registry and
    get-by-id agree: a record is in the listing exactly when get-by-id of its
    id returns it; and no two records of a listing have the same id. *)
Theorem listing_agrees_with_get_by_id (st : State) :
  reachable st ->
  (forall c, c ∈ PyDict.values (db_clientes st)
             <-> read_cliente (Cliente_id c) st = (Return c, st))
  /\ (forall f, f ∈ PyDict.values (db_facturas st)
             <-> read_factura (Factura_id f) st = (Return f, st))
  /\ (forall p, p ∈ PyDict.values (db_productos st)
             <-> read_producto (Producto_id p) st = (Return p, st))
  /\ NoDup (map Cliente_id (PyDict.values (db_clientes st)))
  /\ NoDup (map Factura_id (PyDict.values (db_facturas st)))
  /\ NoDup (map Producto_id (PyDict.values (db_productos st))).
Proof.
  intros Hst. apply reachable_well_formed in Hst as (_ & Hc & Hf & Hp).
  split_and!; try by apply well_keyed_ids_NoDup.
  - intros c. rewrite (well_keyed_values _ _ c Hc), read_cliente_spec.
    destruct (PyDict.get _ _); split; congruence.
  - intros f. rewrite (well_keyed_values _ _ f Hf), read_factura_spec.
    destruct (PyDict.get _ _); split; congruence.
  - intros p. rewrite (well_keyed_values _ _ p Hp), read_producto_spec.
    destruct (PyDict.get _ _); split; congruence.
Qed.

End registries_running.

(** * What a request can and cannot do to the stores *)

Section frames.
Context `{Libraries}.

Lemma mem_set_mono {K V} `{EqDecision K} (d : dict K V) (k k' : K) (v : V) :
  PyDict.mem k d = true -> PyDict.mem k (PyDict.set d k' v) = true.
Proof.
  rewrite !mem_true. intros Hk. destruct (decide (k' = k)) as [->|Hne].
  - rewrite get_set_eq. eauto.
  - by rewrite get_set_ne.
Qed.

Lemma mem_upsert_all (cs : list Cliente) (d : dict Z Cliente) (k : Z) :
  PyDict.mem k d = true -> PyDict.mem k (upsert_all cs d) = true.
Proof.
  revert d. induction cs as [|c cs IH]; intros d Hk; simpl; [done|].
  apply IH. by apply mem_set_mono.
Qed.

Lemma get_set_fresh {K V} `{EqDecision K} (d : dict K V) (k k' : K) (v v' : V) :
  PyDict.mem k' d = false ->
  PyDict.get d k = Some v -> PyDict.get (PyDict.set d k' v') k = Some v.
Proof.
  intros Hk' Hk. apply mem_false in Hk'.
  rewrite get_set_ne; [done|]. intros ->. congruence.
Qed.

(** X4. No request removes anything: a key of any of the four stores is
    still a key after any request, however it is answered.  A stored user,
    invoice or product is never replaced; a stored client is replaced by no
    request but the CSV import. *)
Theorem stores_only_grow (req : request) (st : State) :
  (forall k, PyDict.mem k (db_users st) = true ->
             PyDict.mem k (db_users (after req st)) = true)
  /\ (forall k, PyDict.mem k (db_clientes st) = true ->
             PyDict.mem k (db_clientes (after req st)) = true)
  /\ (forall k, PyDict.mem k (db_facturas st) = true ->
             PyDict.mem k (db_facturas (after req st)) = true)
  /\ (forall k, PyDict.mem k (db_productos st) = true ->
             PyDict.mem k (db_productos (after req st)) = true)
  /\ (forall k u, PyDict.get (db_users st) k = Some u ->
               PyDict.get (db_users (after req st)) k = Some u)
  /\ (forall k f, PyDict.get (db_facturas st) k = Some f ->
               PyDict.get (db_facturas (after req st)) k = Some f)
  /\ (forall k p, PyDict.get (db_productos st) k = Some p ->
               PyDict.get (db_productos (after req st)) k = Some p)
  /\ (forall k c, (forall file, req <> POST_upload_clients_csv file) ->
               PyDict.get (db_clientes st) k = Some c ->
               PyDict.get (db_clientes (after req st)) k = Some c).
Proof.
  destruct req; simpl;
    rewrite ?read_cliente_spec, ?read_factura_spec, ?read_producto_spec,
      ?create_cliente_spec, ?create_factura_spec, ?create_producto_spec,
      ?register_spec, ?export_clients_csv_spec;
    try (by split_and!); try (by destruct (PyDict.get _ _); split_and!).
  - destruct (PyDict.mem _ _) eqn:Hm; simpl; [by split_and!|].
    destruct (bcrypt_hash _ _); simpl; [|by split_and!].
    split_and!; auto using mem_set_mono, get_set_fresh.
  - rewrite token_route_spec. by split_and!.
  - destruct (PyDict.mem _ _) eqn:Hm; simpl; [by split_and!|].
    split_and!; auto using mem_set_mono, get_set_fresh.
  - destruct (upload_clients_csv_state file st) as [cs ->]. simpl.
    split_and!; auto using mem_upsert_all.
    intros k c Hreq. by destruct (Hreq file).
  - destruct (PyDict.mem _ _) eqn:Hm; simpl; [by split_and!|].
    split_and!; auto using mem_set_mono, get_set_fresh.
  - destruct (PyDict.mem _ _) eqn:Hm; simpl; [by split_and!|].
    split_and!; auto using mem_set_mono, get_set_fresh.
Qed.

(** X5. A request that is answered with an HTTP error (400, 401 or 404) has
    changed no store; and no request other than the CSV import changes a
    store when it raises, whatever it raises. *)
Theorem http_errors_change_nothing (req : request) (st : State) :
  (forall code detail,
     raised req st = Some (HTTPException code detail) -> after req st = st)
  /\ (forall e,
       (forall file, req <> POST_upload_clients_csv file) ->
       raised req st = Some e -> after req st = st).
Proof.
  assert (forall e, (forall file, req <> POST_upload_clients_csv file) ->
                    raised req st = Some e -> after req st = st) as Hother.
  { intros e Hreq. destruct req; simpl;
      rewrite ?read_cliente_spec, ?read_factura_spec, ?read_producto_spec,
        ?create_cliente_spec, ?create_factura_spec, ?create_producto_spec,
        ?register_spec, ?export_clients_csv_spec;
      try done; try (by destruct (PyDict.mem _ _));
      try (by destruct (PyDict.get _ _)).
    - destruct (PyDict.mem _ _); [done|]. by destruct (bcrypt_hash _ _).
    - by rewrite token_route_spec.
    - by destruct (Hreq file). }
  split; [|exact Hother].
  intros code detail. destruct req; try by apply Hother.
  simpl. intros He.
  destruct (fst (upload_clients_csv file st)) as [|e] eqn:Hup; [done|].
  injection He as ->.
  by apply upload_clients_csv_raises in Hup as [?|[?|[?|[fs ?]]]].
Qed.

End frames.

(** * More on the user store *)

Section users_running.
Context `{Libraries}.

Lemma after_db_users (req : request) (st : State) :
  db_users (after req st) = db_users st
  \/ exists salt user hashed,
      req = POST_register salt user
      /\ PyDict.get (db_users st) (UserCreate_email user) = None
      /\ db_users (after req st)
         = db_users st
           ++ [(UserCreate_email user,
                mkUserDict (PyDict.len (db_users st) + 1)
                  (UserCreate_email user) hashed)].
Proof.
  destruct req; simpl;
    rewrite ?read_cliente_spec, ?read_factura_spec, ?read_producto_spec,
      ?create_cliente_spec, ?create_factura_spec, ?create_producto_spec,
      ?register_spec, ?export_clients_csv_spec;
    try (by left); try (by destruct (PyDict.get _ _); left);
    try (by destruct (PyDict.mem _ _); left).
  - destruct (PyDict.mem _ _) eqn:Hm; [by left|].
    destruct (bcrypt_hash _ _) as [hashed|]; [|by left].
    right. exists salt, user, hashed. apply mem_false in Hm.
    split_and!; [done..|]. simpl. by apply set_fresh.
  - left. by rewrite token_route_spec.
  - left. by destruct (upload_clients_csv_state file st) as [cs ->].
Qed.

Lemma users_sequential_snoc (d : dict pystr user_dict) email hashed :
  users_sequential d ->
  users_sequential (d ++ [(email, mkUserDict (PyDict.len d + 1) email hashed)]).
Proof.
  intros Hd i email' ud Hi.
  apply lookup_app_Some in Hi as [Hi|[Hlen Hi]]; [by apply Hd|].
  apply list_lookup_singleton_Some in Hi as [Hi [= <- <-]].
  simpl. unfold PyDict.len. split; [lia|done].
Qed.

(** X6. In every state of a running process the user ids count the
    registrations: the user at position [i] of the store has id [i + 1] and
    is stored under its own e-mail, so that no e-mail and no id occurs twice
    and a user found by e-mail has that e-mail and an id between 1 and the
    number of users. *)
Theorem user_ids_are_sequential (st : State) :
  reachable st ->
  users_sequential (db_users st)
  /\ NoDup (PyDict.keys (db_users st))
  /\ NoDup (map ud_id (PyDict.values (db_users st)))
  /\ (forall email u,
        get_user (db_users st) email = Some u ->
        User_email u = email /\ 1 <= User_id u <= PyDict.len (db_users st)).
Proof.
  intros Hst.
  assert (users_sequential (db_users st)) as Hseq.
  { induction Hst as [|st req _ IH]; [by intros [|i] ???|].
    destruct (after_db_users req st)
      as [->|(salt & user & hashed & _ & _ & ->)]; [done|].
    by apply users_sequential_snoc. }
  pose proof (reachable_well_formed st Hst) as (Hnd & _).
  split_and!; [done..| |].
  - apply NoDup_alt. intros i j x Hi Hj.
    unfold PyDict.values in *. rewrite !list_lookup_fmap in Hi, Hj.
    apply fmap_Some in Hi as (u1 & Hi & ->).
    apply fmap_Some in Hi as ([e1 u1'] & Hi & ->).
    apply fmap_Some in Hj as (u2 & Hj & Hx).
    apply fmap_Some in Hj as ([e2 u2'] & Hj & ->).
    apply Hseq in Hi as [Hi _]. apply Hseq in Hj as [Hj _].
    simpl in *. lia.
  - intros email u. rewrite get_user_spec.
    destruct (PyDict.get _ email) as [ud|] eqn:Hg; [|done].
    intros [= <-]. simpl.
    apply get_Some_elem, list_elem_of_lookup in Hg as [i Hi].
    pose proof (lookup_lt_Some _ _ _ Hi) as Hlt.
    apply Hseq in Hi as [-> ->]. unfold PyDict.len. split; [done|lia].
Qed.

End users_running.

(** * More on the import *)

Section dict_ext.
Context {K V : Type} `{EqDecision K}.

(** Two dictionaries with the same keys in the same order and the same value
    under every key are the same dictionary. *)
Lemma dict_ext (d1 d2 : dict K V) :
  NoDup (PyDict.keys d1) ->
  PyDict.keys d1 = PyDict.keys d2 ->
  (forall k, PyDict.get d1 k = PyDict.get d2 k) ->
  d1 = d2.
Proof.
  revert d2. induction d1 as [|[k v1] d1 IH]; intros [|[k2 v2] d2] Hnd Hk Hg;
    try done.
  simpl in Hk. injection Hk as <- Hk.
  simpl in Hnd. apply NoDup_cons in Hnd as [Hk1 Hnd].
  pose proof (Hg k) as Hgk. simpl in Hgk. rewrite !decide_True in Hgk by done.
  injection Hgk as <-. f_equal. apply IH; [done..|].
  intros k'. specialize (Hg k'). simpl in Hg.
  destruct (decide (k = k')) as [<-|Hne]; [|done].
  assert (k ∉ PyDict.keys d2) as Hk2.
  { unfold PyDict.keys in *. by rewrite <- Hk. }
  apply get_None_keys in Hk1. apply get_None_keys in Hk2.
  by rewrite Hk1, Hk2.
Qed.

Lemma keys_set_present (d : dict K V) (k : K) (v : V) :
  PyDict.mem k d = true -> PyDict.keys (PyDict.set d k v) = PyDict.keys d.
Proof. intros Hm. by rewrite keys_set, Hm. Qed.

End dict_ext.

Lemma keys_upsert_all_present (cs : list Cliente) (d : dict Z Cliente) :
  Forall (fun c => PyDict.mem (Cliente_id c) d = true) cs ->
  PyDict.keys (upsert_all cs d) = PyDict.keys d.
Proof.
  revert d. induction cs as [|c cs IH]; intros d Hcs; simpl; [done|].
  apply Forall_cons in Hcs as [Hc Hcs].
  rewrite IH, keys_set_present; [done..|].
  eapply Forall_impl; [exact Hcs|]. intros c'. apply mem_set_mono.
Qed.

Lemma mem_upsert_all_new (cs : list Cliente) (d : dict Z Cliente) :
  Forall (fun c => PyDict.mem (Cliente_id c) (upsert_all cs d) = true) cs.
Proof.
  revert d. induction cs as [|c cs IH]; intros d; simpl; constructor; [|done].
  apply mem_upsert_all, mem_true. rewrite get_set_eq. eauto.
Qed.

Lemma NoDup_keys_upsert_all (cs : list Cliente) (d : dict Z Cliente) :
  NoDup (PyDict.keys d) -> NoDup (PyDict.keys (upsert_all cs d)).
Proof.
  revert d. induction cs as [|c cs IH]; intros d Hd; simpl; [done|].
  by apply IH, NoDup_keys_set.
Qed.

(** Assigning the clients of an import once more changes nothing. *)
Lemma upsert_all_twice (cs : list Cliente) (d : dict Z Cliente) :
  NoDup (PyDict.keys d) ->
  upsert_all cs (upsert_all cs d) = upsert_all cs d.
Proof.
  intros Hd. apply dict_ext.
  - by do 2 apply NoDup_keys_upsert_all.
  - apply keys_upsert_all_present, mem_upsert_all_new.
  - intros k. rewrite (get_upsert_all cs (upsert_all cs d)).
    rewrite (get_upsert_all cs d). by destruct (last_with_id k cs).
Qed.

Section import_more.
Context `{Libraries}.

(** The loop ends well only when the reader ends well and every row made a
    client. *)
Lemma upload_rows_Return (rows : iter row_dict) (st st' : State) :
  upload_rows rows st = (Return tt, st') ->
  iter_end rows = None
  /\ exists cs,
      Forall2 (fun row c => Cliente_of_row row = Return c) (iter_items rows) cs
      /\ st' = set_db_clientes (upsert_all cs (db_clientes st)) st.
Proof.
  revert st. induction rows as [|row rest IH|e]; intros st; simpl.
  - intros [= <-]. split; [done|]. exists []. split; [constructor|].
    simpl. by rewrite set_db_clientes_same.
  - run_handler. destruct (Cliente_of_row row) as [c|e] eqn:Hc; simpl; [|done].
    intros Hrest. apply IH in Hrest as (Hend & cs & Hall & ->).
    split; [done|]. exists (c :: cs). split; [by constructor|].
    simpl. by rewrite set_db_clientes_twice.
  - done.
Qed.

(** The loop stops at the first row that makes no client, or where the
    reader raises, and what it assigned before stays. *)
Lemma upload_rows_then (rows : list row_dict) (cs : list Cliente)
    (rest : iter row_dict) (st : State) :
  Forall2 (fun row c => Cliente_of_row row = Return c) rows cs ->
  upload_rows (rows_then rows rest) st
  = upload_rows rest (set_db_clientes (upsert_all cs (db_clientes st)) st).
Proof.
  intros Hall. revert st.
  induction Hall as [|row c rows cs Hc _ IH]; intros st; simpl.
  - by rewrite set_db_clientes_same.
  - run_handler. rewrite Hc. simpl. rewrite IH. simpl.
    by rewrite set_db_clientes_twice.
Qed.

(** X8. The import has no rollback.  When the rows of the file make clients
    up to some row that does not (its cells do not fit the model, or it is
    longer than the header), or up to the point where the CSV reader raises,
    the request fails with that exception and the clients of the rows before
    it stay assigned, each under its id. *)
Theorem import_keeps_rows_before_failure (file : list Byte.byte) (text : pystr)
    (rows : list row_dict) (cs : list Cliente) (st : State) :
  decode file = Some text ->
  Forall2 (fun row c => Cliente_of_row row = Return c) rows cs ->
  (forall bad rest e,
     DictReader (splitlines text) = rows_then rows (Next bad rest) ->
     Cliente_of_row bad = Raise e ->
     upload_clients_csv file st
     = (Raise e, set_db_clientes (upsert_all cs (db_clientes st)) st))
  /\ (forall e,
       DictReader (splitlines text) = rows_then rows (Throw e) ->
       upload_clients_csv file st
       = (Raise e, set_db_clientes (upsert_all cs (db_clientes st)) st)).
Proof.
  intros Hdec Hall. unfold upload_clients_csv. rewrite Hdec. split.
  - intros bad rest e -> Hbad. run_handler.
    rewrite (upload_rows_then rows cs _ st Hall). simpl. run_handler.
    by rewrite Hbad.
  - intros e ->. run_handler.
    by rewrite (upload_rows_then rows cs _ st Hall).
Qed.

(** X9. Importing the same file a second time changes nothing: in a state
    of a running process, when an import has succeeded, the import of the
    same file into the state it left succeeds again and leaves that state
    as it is. *)
Theorem import_twice_is_import_once (file : list Byte.byte) (st st1 : State)
    (answer : dict pystr pyval) :
  reachable st ->
  upload_clients_csv file st = (Return answer, st1) ->
  upload_clients_csv file st1 = (Return answer, st1).
Proof.
  intros Hst. apply reachable_well_formed in Hst as (_ & [_ Hnd] & _).
  unfold upload_clients_csv. destruct (decode file) as [text|]; [|done].
  run_handler.
  destruct (upload_rows (DictReader (splitlines text)) st) as [[[]|e] st']
    eqn:Hrows; simpl; [|done].
  intros [= <- <-].
  apply upload_rows_Return in Hrows as (Hend & cs & Hall & ->).
  rewrite (upload_rows_all _ cs _ Hend Hall). simpl.
  by rewrite upsert_all_twice.
Qed.

(** X10. A row under the header of the model.  With the six field names of
    the client model as the header, a row of six cells makes the client of
    those cells when the first cell is read as an integer, and fails the
    validation on [id] alone when it is not; a row longer than its header,
    whatever the header, is refused with a type error; and a row of one to
    five cells fails the validation on every field it has no cell for. *)
Theorem rows_under_the_model_header :
  (forall i d f l e p,
     Cliente_of_row (make_row Cliente_fields [i; d; f; l; e; p])
     = match int_of_str i with
       | Some n => Return (mkCliente n d f l e p)
       | None => Raise (ValidationError [py "id"])
       end)
  /\ (forall fieldnames row,
       (length fieldnames < length row)%nat ->
       Cliente_of_row (make_row fieldnames row) = Raise TypeError)
  /\ (forall i row,
       (length row < 5)%nat ->
       Cliente_of_row (make_row Cliente_fields (i :: row))
       = Raise (ValidationError
                  (match int_of_str i with Some _ => [] | None => [py "id"] end
                   ++ drop (S (length row)) Cliente_fields))).
Proof.
  split_and!.
  - intros i d f l e p. cbv -[int_of_str]. by destruct (int_of_str i).
  - intros fieldnames row Hlen. unfold Cliente_of_row.
    assert (PyDict.mem None (make_row fieldnames row) = true) as ->; [|done].
    apply mem_true. unfold make_row. rewrite decide_True by done.
    rewrite get_set_eq. eauto.
  - intros i row Hlen.
    destruct row as [|c1 [|c2 [|c3 [|c4 [|c5 row]]]]]; simpl in Hlen; try lia;
      cbv -[int_of_str]; by destruct (int_of_str i).
Qed.

End import_more.

(** * The lines of a text *)

Lemma splitlines_from_facts (n : nat) (s line : pystr) :
  (length s <= n)%nat ->
  one_line line ->
  Forall one_line (splitlines_from line s)
  /\ (sum_list (length <$> splitlines_from line s) <= length line + length s)%nat.
Proof.
  revert s line. induction n as [|n IH]; intros s line Hn Hline.
  - destruct s; [|simpl in Hn; lia]. simpl.
    destruct line; simpl; [split; [constructor|lia]|].
    split; [by constructor|simpl; lia].
  - destruct s as [|c s]; simpl.
    { destruct line; simpl; [split; [constructor|lia]|].
      split; [by constructor|simpl; lia]. }
    simpl in Hn. destruct (is_linebreak c) eqn:Hc.
    + assert (forall s', (length s' <= length s)%nat ->
                Forall one_line (line :: splitlines_from [] s')
                /\ (sum_list (length <$> line :: splitlines_from [] s')
                    <= length line + S (length s))%nat) as Hrest.
      { intros s' Hs'. destruct (IH s' []) as [Hall Hsum]; [lia|constructor|].
        split; [by constructor|]. rewrite fmap_cons. cbn [sum_list].
        unfold id. apply Nat.add_le_mono_l. etrans; [exact Hsum|]. simpl. lia. }
      destruct s as [|c' s'']; [by apply Hrest|].
      destruct (_ && _); apply Hrest; simpl; lia.
    + destruct (IH s (line ++ [c])) as [Hall Hsum]; [lia| |].
      { apply Forall_app. split; [done|]. by constructor. }
      split; [done|]. rewrite length_app in Hsum. simpl in *. lia.
Qed.

Lemma splitlines_unlines_from (lines : list pystr) :
  Forall one_line lines -> splitlines (unlines lines) = lines.
Proof.
  induction 1 as [|l lines Hl _ IH]; [done|].
  unfold unlines in *. unfold splitlines at 1. simpl. rewrite <- app_assoc. simpl.
  rewrite splitlines_from_line; [by rewrite IH|].
  apply forallb_forall. intros c Hc. apply list_elem_of_In in Hc.
  unfold one_line in Hl. rewrite Forall_forall in Hl. by rewrite (Hl c Hc).
Qed.

Lemma splitlines_from_one_line (s line : pystr) :
  one_line s ->
  splitlines_from line s = match line ++ s with [] => [] | _ => [line ++ s] end.
Proof.
  intros Hs. revert line. induction Hs as [|c s Hc _ IH]; intros line; simpl.
  - rewrite app_nil_r. by destruct line.
  - rewrite Hc, IH, <- app_assoc. simpl. by destruct line.
Qed.

(** X11. [splitlines] drops line boundaries and nothing else is lost or
    made up: no line of the result holds a boundary character and the lines
    together are no longer than the text; a text without a boundary is its
    own single line (no line at all when it is empty); and lines without
    boundaries, written out with a line feed after each, are read back as
    they were. *)
Theorem splitlines_lines (s : pystr) :
  Forall one_line (splitlines s)
  /\ (sum_list (length <$> splitlines s) <= length s)%nat
  /\ (one_line s -> splitlines s = match s with [] => [] | _ => [s] end)
  /\ (forall lines, Forall one_line lines -> splitlines (unlines lines) = lines).
Proof.
  destruct (splitlines_from_facts (length s) s []) as [Hall Hsum];
    [done|constructor|].
  split_and!; [done..| |apply splitlines_unlines_from].
  intros Hs. unfold splitlines. by rewrite splitlines_from_one_line.
Qed.

(** * The CSV reader never raises on a small text *)

Lemma linebreak_crnl (c : codepoint) : is_linebreak c = false -> is_crnl c = false.
Proof.
  unfold is_crnl, is_linebreak, LF, CR. intros Hc.
  apply bool_decide_eq_false in Hc.
  apply orb_false_intro; apply bool_decide_eq_false; intros ->; apply Hc;
    repeat constructor.
Qed.

Lemma parse_add_char_Some (c : codepoint) (r : reader) :
  Z.of_nat (length (field r)) < field_limit ->
  parse_add_char c r = Some (mkReader (fields r) (field r ++ [c]) (state r)).
Proof. intros Hlen. unfold parse_add_char. by rewrite decide_False by lia. Qed.

(** A character that is no carriage return and no line feed is taken, unless
    the field is full; the parser does not come to wait for a line end. *)
Lemma parse_char_ok (c : codepoint) (r : reader) :
  is_crnl c = false ->
  state r <> EAT_CRNL ->
  Z.of_nat (length (field r)) < field_limit ->
  exists r',
    parse_process_char (Some c) r = Some r'
    /\ state r' <> EAT_CRNL
    /\ (length (field r') <= length (field r) + 1)%nat.
Proof.
  intros Hc Hs Hlen. destruct r as [fs f s].
  unfold parse_process_char, start_field. simpl in *.
  destruct s; try done; rewrite ?Hc;
    repeat (destruct (bool_decide _); simpl);
    rewrite ?parse_add_char_Some by done; simpl;
    eexists; (split; [reflexivity|]); simpl;
    rewrite ?length_app; simpl; (split; [done|lia]).
Qed.

Lemma parse_eol_ok (r : reader) :
  state r <> EAT_CRNL ->
  exists r',
    parse_process_char None r = Some r'
    /\ state r' <> EAT_CRNL
    /\ (length (field r') <= length (field r))%nat.
Proof.
  intros Hs. destruct r as [fs f s]. unfold parse_process_char, start_field.
  simpl in *. destruct s; try done;
    eexists; (split; [reflexivity|]); simpl; (split; [done|lia]).
Qed.

Lemma parse_line_ok (line : pystr) (r : reader) :
  one_line line ->
  state r <> EAT_CRNL ->
  Z.of_nat (length (field r) + length line) <= field_limit ->
  exists r',
    parse_line line r = Some r'
    /\ state r' <> EAT_CRNL
    /\ (length (field r') <= length (field r) + length line)%nat.
Proof.
  intros Hline. revert r. induction Hline as [|c line Hc _ IH]; intros r Hs Hlen.
  - destruct (parse_eol_ok r Hs) as (r' & Hr' & Hs' & Hf). simpl.
    exists r'. split_and!; [done..|lia].
  - simpl in Hlen.
    destruct (parse_char_ok c r (linebreak_crnl c Hc) Hs) as (r1 & Hr1 & Hs1 & Hf1);
      [lia|].
    destruct (IH r1 Hs1) as (r' & Hr' & Hs' & Hf'); [lia|].
    exists r'. simpl. rewrite Hr1. simpl. split_and!; [done..|lia].
Qed.

Lemma reader_rows_ok (lines : list pystr) (r : reader) :
  Forall one_line lines ->
  state r <> EAT_CRNL ->
  Z.of_nat (length (field r) + sum_list (length <$> lines)) <= field_limit ->
  iter_end (reader_rows r lines) = None.
Proof.
  intros Hlines. revert r.
  induction Hlines as [|line lines Hline _ IH]; intros r Hs Hlen; simpl.
  - by destruct (_ || _).
  - rewrite fmap_cons in Hlen.
    change (sum_list (length line :: (length <$> lines)))
      with (length line + sum_list (length <$> lines))%nat in Hlen.
    destruct (parse_line_ok line r Hline Hs) as (r' & -> & Hs' & Hf'); [lia|].
    destruct (bool_decide (state r' = START_RECORD)); simpl; apply IH; simpl;
      try done; lia.
Qed.

Lemma decode_utf8_length (bs : list N) (s : pystr) :
  decode_utf8 bs = Some s -> (length s <= length bs)%nat.
Proof.
  remember (length bs) as n eqn:Hn. revert bs s Hn.
  induction (lt_wf n) as [n _ IH]. intros bs s -> Hdec.
  destruct bs as [|b0 r0]; simpl in Hdec; [by simplify_eq|].
  repeat (case_match; simplify_eq/=; try done);
    match goal with
    | H : cons _ <$> decode_utf8 ?r = Some _ |- _ =>
        apply fmap_Some in H as (s' & Hs' & ->);
        eapply (IH (length r)) in Hs'; [|simpl; lia|reflexivity];
        simpl; lia
    end.
Qed.

Lemma decode_length (file : list Byte.byte) (text : pystr) :
  decode file = Some text -> (length text <= length file)%nat.
Proof.
  unfold decode. intros Hdec. apply decode_utf8_length in Hdec.
  by rewrite length_map in Hdec.
Qed.

Lemma DictReader_end_of_reader (lines : list pystr) :
  iter_end (csv_reader lines) = None -> iter_end (DictReader lines) = None.
Proof.
  unfold DictReader. destruct (csv_reader lines) as [|fieldnames rest|e];
    simpl; [done| |done].
  by rewrite dict_rows_end.
Qed.

Section small_files.
Context `{Libraries}.

(** X12. The CSV reader can fail the import only through its field size
    limit: for a file of at most 131072 bytes the reader ends without
    raising, so the import of such a file never fails with a CSV error. *)
Theorem small_file_never_fails_in_the_reader (file : list Byte.byte)
    (text : pystr) (st : State) :
  decode file = Some text ->
  Z.of_nat (length file) <= field_limit ->
  iter_end (DictReader (splitlines text)) = None
  /\ fst (upload_clients_csv file st) <> Raise CsvError.
Proof.
  intros Hdec Hlen. pose proof (decode_length file text Hdec) as Htext.
  assert (iter_end (DictReader (splitlines text)) = None) as Hend.
  { apply DictReader_end_of_reader. unfold csv_reader.
    destruct (splitlines_from_facts (length text) text []) as [Hall Hsum];
      [done|constructor|].
    apply reader_rows_ok; [done..|].
    change (length (field parse_reset)) with 0%nat.
    unfold splitlines. simpl length in Hsum. lia. }
  split; [done|].
  unfold upload_clients_csv. rewrite Hdec. run_handler.
  destruct (upload_rows (DictReader (splitlines text)) st) as [[[]|e] st']
    eqn:Hrows; simpl; [done|].
  intros [= ->].
  destruct (upload_rows_raises (DictReader (splitlines text)) st CsvError)
    as [?|[[fs ?]|Hend']]; [by rewrite Hrows|done..|congruence].
Qed.

(** X13. A file with no data row imports nothing and succeeds: when the
    text of a file of at most 131072 bytes has no line boundary (it is empty,
    or a header line alone, whatever the header says), the import answers
    with its message and leaves every store as it was. *)
Theorem header_only_file_imports_nothing (file : list Byte.byte)
    (text : pystr) (st : State) :
  decode file = Some text ->
  Z.of_nat (length file) <= field_limit ->
  one_line text ->
  upload_clients_csv file st
  = (Return [(py "message", VStr (py "Clientes cargados exitosamente"))], st).
Proof.
  intros Hdec Hlen Hline. pose proof (decode_length file text Hdec) as Htext.
  assert (DictReader (splitlines text) = Stop) as Hstop.
  { unfold splitlines. rewrite splitlines_from_one_line by done. simpl.
    destruct text as [|c text]; [done|].
    unfold DictReader, csv_reader. simpl reader_rows.
    destruct (parse_line_ok (c :: text) parse_reset Hline) as (r' & Hr' & _);
      [done|change (length (field parse_reset)) with 0%nat; lia|].
    change (parse_line (c :: text) parse_reset) with
      (parse_process_char (Some c) parse_reset ≫= parse_line text) in Hr'.
    rewrite Hr'. destruct (bool_decide _); [done|].
    by destruct (_ || _). }
  unfold upload_clients_csv. by rewrite Hdec, Hstop.
Qed.

End small_files.

(** * The CSV reader on lines without quotes *)

Lemma parse_unquoted (s : pystr) (fs : list pystr) (piece : pystr)
    (st : parser_state) :
  (st = START_FIELD /\ piece = []) \/ st = IN_FIELD ->
  unquoted s ->
  Z.of_nat (length piece + length s) <= field_limit ->
  parse_line s (mkReader fs piece st)
  = Some (mkReader (fs ++ split_from piece s) [] START_RECORD).
Proof.
  intros Hst [Hline Hq]. revert fs piece st Hst.
  induction Hline as [|c s Hc Hline IH]; intros fs piece st Hst Hlen.
  - by destruct Hst as [[-> ->]| ->].
  - apply not_elem_of_cons in Hq as [Hcq Hq]. specialize (IH Hq).
    pose proof (linebreak_crnl c Hc) as Hcrnl.
    simpl in Hlen. simpl split_from.
    assert (parse_process_char (Some c) (mkReader fs piece st)
            = Some (if bool_decide (c = delimiter)
                    then mkReader (fs ++ [piece]) [] START_FIELD
                    else mkReader fs (piece ++ [c]) IN_FIELD)) as Hstep.
    { unfold parse_process_char, start_field. simpl.
      destruct Hst as [[-> ->]| ->]; simpl; rewrite Hcrnl;
        rewrite ?(bool_decide_eq_false_2 (c = quotechar)) by done;
        destruct (bool_decide (c = delimiter)); try done;
        by rewrite parse_add_char_Some by (simpl; lia). }
    change (parse_line (c :: s) (mkReader fs piece st))
      with (parse_process_char (Some c) (mkReader fs piece st) ≫= parse_line s).
    rewrite Hstep. simpl. destruct (bool_decide (c = delimiter)).
    + rewrite IH; [|by left|simpl; lia]. by rewrite <- app_assoc.
    + rewrite IH; [done|by right|]. rewrite length_app. simpl. lia.
Qed.

Lemma parse_unquoted_line (line : pystr) :
  unquoted line ->
  Z.of_nat (length line) <= field_limit ->
  parse_line line parse_reset
  = Some (mkReader (match line with [] => [] | _ => split_commas line end)
            [] START_RECORD).
Proof.
  intros Hline Hlen. destruct line as [|c s]; [done|].
  pose proof Hline as [Hl Hq]. apply Forall_cons in Hl as [Hc _].
  pose proof (linebreak_crnl c Hc) as Hcrnl.
  transitivity (parse_line (c :: s) (mkReader [] [] START_FIELD));
    [|by apply (parse_unquoted (c :: s) [] [] START_FIELD); [left|..]].
  change (parse_line (c :: s) ?r)
    with (parse_process_char (Some c) r ≫= parse_line s).
  f_equal. unfold parse_process_char. simpl. by rewrite Hcrnl.
Qed.

(** X14. On lines that hold no quote character and are not longer than the
    field size limit the CSV reader is a split on commas: every line gives
    one row, the pieces of the line between its commas, except that an empty
    line gives the empty row; and the reader does not raise. *)
Theorem csv_reader_splits_unquoted_lines (lines : list pystr) :
  Forall (fun line => unquoted line /\ Z.of_nat (length line) <= field_limit)
    lines ->
  csv_reader lines
  = rows_then
      (map (fun line => match line with [] => [] | _ => split_commas line end)
         lines) Stop.
Proof.
  unfold csv_reader. induction 1 as [|line lines [Hline Hlen] _ IH]; [done|].
  simpl. rewrite (parse_unquoted_line line Hline Hlen). simpl. by rewrite IH.
Qed.

(** * The export read by the CSV reader *)

Lemma plain_inv (c : codepoint) :
  plain c = true -> is_linebreak c = false /\ c <> quotechar /\ c <> delimiter.
Proof.
  unfold plain. intros Hc. apply andb_prop in Hc as [Hc Hd].
  apply andb_prop in Hc as [Hl Hq].
  apply negb_true_iff in Hl. apply negb_true_iff, bool_decide_eq_false in Hq, Hd.
  done.
Qed.

Lemma plain_text_app (s t : pystr) :
  plain_text s -> plain_text t -> plain_text (s ++ t).
Proof. intros. by apply Forall_app. Qed.

Lemma pretty_N_go_plain (x : N) (s : string) :
  plain_text (py s) -> plain_text (py (pretty_N_go x s)).
Proof.
  revert s. induction (N.lt_wf_0 x) as [x _ IH]; intros s Hs.
  destruct (decide (x = 0)%N) as [->|Hx]; [by rewrite pretty_N_go_0|].
  rewrite pretty_N_go_step by lia. apply IH; [apply N.div_lt; lia|].
  rewrite py_String. constructor; [apply pretty_N_char_plain|done].
Qed.

Lemma str_int_plain (n : Z) : plain_text (str_int n).
Proof.
  unfold str_int, pretty, pretty_Z. destruct n as [|p|p].
  - by repeat constructor.
  - unfold pretty, pretty_positive, pretty, pretty_N.
    rewrite decide_False by done. apply pretty_N_go_plain. constructor.
  - change (py ("-" +:+ pretty p)) with (45%N :: py (pretty p)).
    constructor; [done|].
    unfold pretty, pretty_positive, pretty, pretty_N.
    rewrite decide_False by done. apply pretty_N_go_plain. constructor.
Qed.

Lemma split_from_plain (piece p : pystr) :
  plain_text p -> split_from piece p = [piece ++ p].
Proof.
  intros Hp. revert piece. induction Hp as [|c p Hc _ IH]; intros piece; simpl.
  - by rewrite app_nil_r.
  - apply plain_inv in Hc as (_ & _ & Hc).
    rewrite bool_decide_eq_false_2 by done. by rewrite IH, <- app_assoc.
Qed.

Lemma split_from_plain_comma (piece p rest : pystr) :
  plain_text p ->
  split_from piece (p ++ delimiter :: rest) = (piece ++ p) :: split_from [] rest.
Proof.
  intros Hp. revert piece. induction Hp as [|c p Hc _ IH]; intros piece; simpl.
  - by rewrite app_nil_r.
  - apply plain_inv in Hc as (_ & _ & Hc).
    rewrite bool_decide_eq_false_2 by done. by rewrite IH, <- app_assoc.
Qed.

Lemma split_join (cells : list pystr) :
  cells <> [] -> Forall plain_text cells ->
  split_commas (join (py ",") cells) = cells.
Proof.
  intros Hne Hcells. unfold split_commas.
  induction Hcells as [|p cells Hp Hcells IH]; [done|].
  destruct cells as [|q cells]; simpl.
  - by rewrite split_from_plain.
  - change (py ",") with [delimiter]. simpl.
    rewrite split_from_plain_comma by done. simpl. f_equal. by apply IH.
Qed.

Lemma join_plain (cells : list pystr) :
  Forall plain_text cells ->
  Forall (fun c => c = delimiter \/ plain c = true) (join (py ",") cells).
Proof.
  induction 1 as [|p cells Hp Hcells IH]; [constructor|].
  assert (Forall (fun c => c = delimiter \/ plain c = true) p) as Hp'.
  { eapply Forall_impl; [exact Hp|]. auto. }
  destruct cells as [|q cells]; simpl; [done|].
  apply Forall_app. split; [done|].
  change (py ",") with [delimiter]. simpl. constructor; [by left|done].
Qed.

Lemma join_unquoted (cells : list pystr) :
  Forall plain_text cells -> unquoted (join (py ",") cells).
Proof.
  intros Hcells. apply join_plain in Hcells. split.
  - eapply Forall_impl; [exact Hcells|]. intros c [->|Hc]; [done|].
    by apply plain_inv in Hc as [? _].
  - intros Hq. rewrite Forall_forall in Hcells.
    destruct (Hcells _ Hq) as [?|Hc]; [done|].
    by apply plain_inv in Hc as (_ & ? & _).
Qed.

Lemma exported_text_unlines (st : State) :
  exported_text st
  = unlines (header_row ::
               map (fun kc => join (py ",") (item_cells (db_facturas st) kc))
                 (db_clientes st)).
Proof.
  rewrite exported_text_spec. unfold unlines. rewrite map_cons, map_map.
  change (concat ((header_row ++ [LF]) :: ?l))
    with ((header_row ++ [LF]) ++ concat l).
  by rewrite <- app_assoc.
Qed.

Lemma elem_le_sum_list (x : nat) (l : list nat) :
  x ∈ l -> (x <= sum_list l)%nat.
Proof.
  induction 1 as [x l|x y l _ IH].
  - change (sum_list (x :: l)) with (x + sum_list l)%nat. lia.
  - change (sum_list (y :: l)) with (y + sum_list l)%nat. lia.
Qed.

(** X15. The export is well-formed CSV when the fields are plain.  If no
    stored client has a comma, a quote character or a line boundary in its
    document or its names, and the exported text is no longer than the field
    size limit of the reader, then the CSV reader reads the export back
    without raising as exactly one row of four cells per line: the four
    header names, then for every client in registry order its id, its
    document, its full name and its invoice count. *)
Theorem export_reads_back_as_csv (st : State) :
  Forall (fun kc => plain_text (Cliente_documento kc.2)
                    /\ plain_text (Cliente_first_name kc.2)
                    /\ plain_text (Cliente_last_name kc.2)) (db_clientes st) ->
  Z.of_nat (length (exported_text st)) <= field_limit ->
  csv_reader (splitlines (exported_text st))
  = rows_then (headers :: map (item_cells (db_facturas st)) (db_clientes st)) Stop.
Proof.
  intros Hplain Hlen.
  assert (Forall (fun kc => Forall plain_text (item_cells (db_facturas st) kc))
            (db_clientes st)) as Hcells.
  { eapply Forall_impl; [exact Hplain|]. intros [k c] (Hd & Hf & Hl).
    unfold item_cells, item_row. cbn [map str_of fst snd] in *.
    constructor; [apply str_int_plain|]. constructor; [done|].
    constructor; [|constructor; [apply str_int_plain|constructor]].
    apply plain_text_app; [done|]. apply plain_text_app; [|done].
    by repeat constructor. }
  set (lines := header_row ::
                  map (fun kc => join (py ",") (item_cells (db_facturas st) kc))
                    (db_clientes st)).
  assert (Forall unquoted lines) as Hlines.
  { constructor.
    - change header_row with (join (py ",") headers).
      apply join_unquoted. unfold headers. by repeat constructor.
    - apply Forall_fmap. eapply Forall_impl; [exact Hcells|].
      intros kc. apply join_unquoted. }
  assert (splitlines (exported_text st) = lines) as Hsplit.
  { rewrite exported_text_unlines. apply splitlines_unlines_from.
    eapply Forall_impl; [exact Hlines|]. by intros l [? _]. }
  rewrite Hsplit, csv_reader_splits_unquoted_lines.
  - f_equal. subst lines. rewrite map_cons, map_map.
    apply (f_equal2 cons); [by vm_compute|].
    apply map_ext_Forall. eapply Forall_impl; [exact Hcells|].
    intros kc Hkc. cbn beta.
    pose proof (split_join (item_cells (db_facturas st) kc)) as Hsj.
    destruct (join (py ",") (item_cells (db_facturas st) kc)) eqn:Hj.
    + by specialize (Hsj ltac:(done) Hkc).
    + by apply Hsj.
  - apply Forall_forall. intros line Hline. split.
    + rewrite Forall_forall in Hlines. auto.
    + destruct (splitlines_from_facts (length (exported_text st))
                  (exported_text st) []) as [_ Hsum]; [done|constructor|].
      fold (splitlines (exported_text st)) in Hsum. rewrite Hsplit in Hsum.
      assert (length line ∈ length <$> lines) as Hin.
      { apply list_elem_of_fmap. eauto. }
      apply elem_le_sum_list in Hin. simpl length in Hsum. lia.
Qed.

(** * The decoder *)

Lemma between_spec (lo hi b : N) : between lo hi b = true <-> (lo <= b <= hi)%N.
Proof.
  unfold between. rewrite andb_true_iff, !N.leb_le. done.
Qed.

(** Turns the tests of the decoder into arithmetic. *)
Ltac decoder_facts :=
  repeat match goal with
    | H : _ && _ = true |- _ => apply andb_prop in H as [? ?]
    | H : continuation _ = true |- _ => apply between_spec in H
    | H : between _ _ _ = true |- _ => apply between_spec in H
    | H : (_ <? _)%N = true |- _ => apply N.ltb_lt in H
    | H : (_ <? _)%N = false |- _ => apply N.ltb_ge in H
    | H : (_ =? _)%N = true |- _ => apply N.eqb_eq in H
    | H : (_ =? _)%N = false |- _ => apply N.eqb_neq in H
    end.

Lemma decode_utf8_scalar (bs : list N) (s : pystr) :
  decode_utf8 bs = Some s -> Forall scalar_value s.
Proof.
  remember (length bs) as n eqn:Hn. revert bs s Hn.
  induction (lt_wf n) as [n _ IH]. intros bs s -> Hdec.
  destruct bs as [|b0 r0]; simpl in Hdec; [by simplify_eq|].
  repeat (case_match; simplify_eq/=; try done);
    match goal with
    | H : cons _ <$> decode_utf8 ?r = Some _ |- _ =>
        apply fmap_Some in H as (s' & Hs' & ->);
        eapply (IH (length r)) in Hs'; [|simpl; lia|reflexivity];
        constructor; [|done]
    end;
    decoder_facts; unfold scalar_value; lia.
Qed.

Lemma decode_utf8_ascii (bs : list N) :
  Forall (fun b => (b < 128)%N) bs -> decode_utf8 bs = Some bs.
Proof.
  induction 1 as [|b bs Hb _ IH]; [done|].
  simpl. apply N.ltb_lt in Hb. by rewrite Hb, IH.
Qed.

(** ** The decoder against the encoding *)

Ltac note_divmod x :=
  lazymatch goal with
  | _ : x = (64 * (x / 64) + x mod 64)%N |- _ => fail
  | _ => pose proof (N.div_mod' x 64); pose proof (N.mod_lt x 64 ltac:(lia))
  end.

(** Brings in what division by 64 means, for every quotient in sight, and
    then names the quotients and remainders. *)
Ltac divmod_facts :=
  repeat match goal with
    | |- context [(?x / 64)%N] => note_divmod x
    | |- context [(?x mod 64)%N] => note_divmod x
    | H : context [(?x / 64)%N] |- _ => note_divmod x
    | H : context [(?x mod 64)%N] |- _ => note_divmod x
    end;
  repeat match goal with
    | |- context [(?x / 64)%N] =>
        is_var x; let q := fresh "q" in set (q := (x / 64)%N) in *; clearbody q
    | |- context [(?x mod 64)%N] =>
        is_var x; let r := fresh "r" in set (r := (x mod 64)%N) in *; clearbody r
    | H : context [(?x / 64)%N] |- _ =>
        is_var x; let q := fresh "q" in set (q := (x / 64)%N) in *; clearbody q
    | H : context [(?x mod 64)%N] |- _ =>
        is_var x; let r := fresh "r" in set (r := (x mod 64)%N) in *; clearbody r
    end.

Lemma between_true (lo hi b : N) : (lo <= b <= hi)%N -> between lo hi b = true.
Proof. intros. by apply between_spec. Qed.

Lemma decode_utf8_cons (b0 : N) (r0 : list N) :
  decode_utf8 (b0 :: r0) =
      if (b0 <? 128)%N then cons b0 <$> decode_utf8 r0
      else if between 194 223 b0 then
        match r0 with
        | b1 :: r1 =>
            if continuation b1
            then cons ((b0 - 192) * 64 + (b1 - 128))%N <$> decode_utf8 r1
            else None
        | _ => None
        end
      else if between 224 239 b0 then
        match r0 with
        | b1 :: b2 :: r2 =>
            if between (if (b0 =? 224)%N then 160 else 128)
                       (if (b0 =? 237)%N then 159 else 191) b1
               && continuation b2
            then cons ((b0 - 224) * 4096 + (b1 - 128) * 64 + (b2 - 128))%N
                   <$> decode_utf8 r2
            else None
        | _ => None
        end
      else if between 240 244 b0 then
        match r0 with
        | b1 :: b2 :: b3 :: r3 =>
            if between (if (b0 =? 240)%N then 144 else 128)
                       (if (b0 =? 244)%N then 143 else 191) b1
               && continuation b2 && continuation b3
            then cons ((b0 - 240) * 262144 + (b1 - 128) * 4096
                       + (b2 - 128) * 64 + (b3 - 128))%N
                   <$> decode_utf8 r3
            else None
        | _ => None
        end
      else None.
Proof. reflexivity. Qed.

Lemma between_false (lo hi b : N) : (b < lo \/ hi < b)%N -> between lo hi b = false.
Proof.
  intros Hb. destruct (between lo hi b) eqn:Hbt; [|done].
  apply between_spec in Hbt. lia.
Qed.

Lemma decode_utf8_1 (b0 : N) (r : list N) :
  (b0 < 128)%N -> decode_utf8 (b0 :: r) = cons b0 <$> decode_utf8 r.
Proof. intros H0. rewrite decode_utf8_cons. by rewrite (proj2 (N.ltb_lt _ _) H0). Qed.

Lemma decode_utf8_2 (b0 b1 : N) (r : list N) :
  (194 <= b0 <= 223)%N -> (128 <= b1 <= 191)%N ->
  decode_utf8 (b0 :: b1 :: r)
  = cons ((b0 - 192) * 64 + (b1 - 128))%N <$> decode_utf8 r.
Proof.
  intros H0 H1. rewrite decode_utf8_cons.
  rewrite (proj2 (N.ltb_ge b0 128)) by lia.
  rewrite (between_true 194 223 b0) by lia.
  unfold continuation. by rewrite (between_true 128 191 b1) by lia.
Qed.

Lemma decode_utf8_3 (b0 b1 b2 : N) (r : list N) :
  (224 <= b0 <= 239)%N -> (128 <= b1 <= 191)%N ->
  (b0 = 224 -> 160 <= b1)%N -> (b0 = 237 -> b1 <= 159)%N ->
  (128 <= b2 <= 191)%N ->
  decode_utf8 (b0 :: b1 :: b2 :: r)
  = cons ((b0 - 224) * 4096 + (b1 - 128) * 64 + (b2 - 128))%N <$> decode_utf8 r.
Proof.
  intros H0 H1 Hlo Hhi H2. rewrite decode_utf8_cons.
  rewrite (proj2 (N.ltb_ge b0 128)) by lia.
  rewrite (between_false 194 223 b0) by lia.
  rewrite (between_true 224 239 b0) by lia.
  unfold continuation. rewrite (between_true 128 191 b2) by lia.
  rewrite between_true; [done|].
  destruct (N.eqb_spec b0 224), (N.eqb_spec b0 237); lia.
Qed.

Lemma decode_utf8_4 (b0 b1 b2 b3 : N) (r : list N) :
  (240 <= b0 <= 244)%N -> (128 <= b1 <= 191)%N ->
  (b0 = 240 -> 144 <= b1)%N -> (b0 = 244 -> b1 <= 143)%N ->
  (128 <= b2 <= 191)%N -> (128 <= b3 <= 191)%N ->
  decode_utf8 (b0 :: b1 :: b2 :: b3 :: r)
  = cons ((b0 - 240) * 262144 + (b1 - 128) * 4096 + (b2 - 128) * 64
          + (b3 - 128))%N <$> decode_utf8 r.
Proof.
  intros H0 H1 Hlo Hhi H2 H3. rewrite decode_utf8_cons.
  rewrite (proj2 (N.ltb_ge b0 128)) by lia.
  rewrite (between_false 194 223 b0) by lia.
  rewrite (between_false 224 239 b0) by lia.
  rewrite (between_true 240 244 b0) by lia.
  unfold continuation. rewrite (between_true 128 191 b2) by lia.
  rewrite (between_true 128 191 b3) by lia.
  rewrite between_true; [done|].
  destruct (N.eqb_spec b0 240), (N.eqb_spec b0 244); lia.
Qed.

(** Decoding undoes the encoding of a scalar value. *)
Lemma decode_encode_char (c : codepoint) (rest : list N) :
  scalar_value c ->
  decode_utf8 (encode_char c ++ rest) = cons c <$> decode_utf8 rest.
Proof.
  intros [Hmax Hsur]. unfold encode_char.
  destruct (N.ltb_spec c 128) as [H1|H1]; [by apply decode_utf8_1|].
  destruct (N.ltb_spec c 2048) as [H2|H2].
  { cbn [app]. divmod_facts. rewrite decode_utf8_2 by lia. do 2 f_equal. lia. }
  destruct (N.ltb_spec c 65536) as [H3|H3].
  { cbn [app]. divmod_facts. rewrite decode_utf8_3 by lia. do 2 f_equal. lia. }
  cbn [app]. divmod_facts. rewrite decode_utf8_4 by lia. do 2 f_equal. lia.
Qed.

Lemma decode_encode (s : pystr) :
  Forall scalar_value s -> decode_utf8 (encode_utf8 s) = Some s.
Proof.
  induction 1 as [|c s Hc _ IH]; [done|].
  unfold encode_utf8 in *. simpl. by rewrite decode_encode_char, IH.
Qed.

Lemma encode_char_1 (b0 : N) : (b0 < 128)%N -> encode_char b0 = [b0].
Proof. intros H0. unfold encode_char. by rewrite (proj2 (N.ltb_lt _ _) H0). Qed.

Lemma encode_char_2 (b0 b1 : N) :
  (194 <= b0 <= 223)%N -> (128 <= b1 <= 191)%N ->
  encode_char ((b0 - 192) * 64 + (b1 - 128))%N = [b0; b1].
Proof.
  intros H0 H1. unfold encode_char.
  set (c := ((b0 - 192) * 64 + (b1 - 128))%N).
  assert (c = (b0 - 192) * 64 + (b1 - 128))%N as Hc by done. clearbody c.
  rewrite (proj2 (N.ltb_ge c 128)) by lia.
  rewrite (proj2 (N.ltb_lt c 2048)) by lia.
  divmod_facts. repeat f_equal; lia.
Qed.

Lemma encode_char_3 (b0 b1 b2 : N) :
  (224 <= b0 <= 239)%N -> (128 <= b1 <= 191)%N -> (b0 = 224 -> 160 <= b1)%N ->
  (128 <= b2 <= 191)%N ->
  encode_char ((b0 - 224) * 4096 + (b1 - 128) * 64 + (b2 - 128))%N
  = [b0; b1; b2].
Proof.
  intros H0 H1 Hlo H2. unfold encode_char.
  set (c := ((b0 - 224) * 4096 + (b1 - 128) * 64 + (b2 - 128))%N).
  assert (c = (b0 - 224) * 4096 + (b1 - 128) * 64 + (b2 - 128))%N as Hc by done.
  clearbody c.
  rewrite (proj2 (N.ltb_ge c 128)) by lia.
  rewrite (proj2 (N.ltb_ge c 2048)) by lia.
  rewrite (proj2 (N.ltb_lt c 65536)) by lia.
  divmod_facts. repeat f_equal; lia.
Qed.

Lemma encode_char_4 (b0 b1 b2 b3 : N) :
  (240 <= b0 <= 244)%N -> (128 <= b1 <= 191)%N -> (b0 = 240 -> 144 <= b1)%N ->
  (128 <= b2 <= 191)%N -> (128 <= b3 <= 191)%N ->
  encode_char ((b0 - 240) * 262144 + (b1 - 128) * 4096 + (b2 - 128) * 64
               + (b3 - 128))%N = [b0; b1; b2; b3].
Proof.
  intros H0 H1 Hlo H2 H3. unfold encode_char.
  set (c := ((b0 - 240) * 262144 + (b1 - 128) * 4096 + (b2 - 128) * 64
             + (b3 - 128))%N).
  assert (c = (b0 - 240) * 262144 + (b1 - 128) * 4096 + (b2 - 128) * 64
              + (b3 - 128))%N as Hc by done.
  clearbody c.
  rewrite (proj2 (N.ltb_ge c 128)) by lia.
  rewrite (proj2 (N.ltb_ge c 2048)) by lia.
  rewrite (proj2 (N.ltb_ge c 65536)) by lia.
  divmod_facts. repeat f_equal; lia.
Qed.

(** What decodes is the encoding of what it decodes to: there is one byte
    sequence for a text, no overlong form and no other spelling. *)
Lemma encode_decode (bs : list N) (s : pystr) :
  decode_utf8 bs = Some s -> bs = encode_utf8 s.
Proof.
  remember (length bs) as n eqn:Hn. revert bs s Hn.
  induction (lt_wf n) as [n _ IH]. intros bs s -> Hdec.
  destruct bs as [|b0 r0]; simpl in Hdec; [by simplify_eq|].
  repeat (case_match; simplify_eq/=; try done);
    match goal with
    | H : cons _ <$> decode_utf8 ?r = Some _ |- _ =>
        apply fmap_Some in H as (s' & Hs' & ->);
        eapply (IH (length r)) in Hs'; [|simpl; lia|reflexivity];
        rewrite Hs'; unfold encode_utf8; cbn [map concat]
    end;
    decoder_facts.
  - by rewrite encode_char_1.
  - by rewrite encode_char_2.
  - rewrite encode_char_3; [done|lia..].
  - rewrite encode_char_3; [done|lia..].
  - rewrite encode_char_3; [done|lia..].
  - rewrite encode_char_3; [done|lia..].
  - rewrite encode_char_4; [done|lia..].
  - rewrite encode_char_4; [done|lia..].
  - rewrite encode_char_4; [done|lia..].
  - rewrite encode_char_4; [done|lia..].
Qed.

(** The decoder, said whole: a file decodes to a text exactly when the text
    holds scalar values only and the file is its encoding. *)
Lemma decode_spec (file : list Byte.byte) (text : pystr) :
  decode file = Some text
  <-> Forall scalar_value text /\ map Byte.to_N file = encode_utf8 text.
Proof.
  unfold decode. split.
  - intros Hdec. split; [by eapply decode_utf8_scalar|by apply encode_decode].
  - intros [Htext ->]. by apply decode_encode.
Qed.

Lemma encode_char_bytes (c : codepoint) :
  scalar_value c -> Forall (fun b => (b < 256)%N) (encode_char c).
Proof.
  intros [Hmax _]. unfold encode_char.
  destruct (N.ltb_spec c 128); [repeat constructor; lia|].
  destruct (N.ltb_spec c 2048); [divmod_facts; repeat constructor; lia|].
  destruct (N.ltb_spec c 65536); divmod_facts; repeat constructor; lia.
Qed.

Lemma bytes_of_N (l : list N) :
  Forall (fun b => (b < 256)%N) l -> map Byte.to_N (omap Byte.of_N l) = l.
Proof.
  induction 1 as [|b l Hb _ IH]; [done|].
  simpl. destruct (Byte.of_N b) as [x|] eqn:Hx.
  - simpl. f_equal; [by apply Byte.to_of_N|exact IH].
  - apply Byte.of_N_None_iff in Hx. lia.
Qed.

Lemma utf8_bytes_spec (text : pystr) :
  Forall scalar_value text -> map Byte.to_N (utf8_bytes text) = encode_utf8 text.
Proof.
  intros Htext. apply bytes_of_N. unfold encode_utf8.
  induction Htext as [|c text Hc _ IH]; [constructor|].
  simpl. apply Forall_app. split; [by apply encode_char_bytes|done].
Qed.

(** X16. The decoder of the import is the strict UTF-8 decoder.  A file
    decodes to a text exactly when the text holds Unicode scalar values only
    (nothing above U+10FFFF, no surrogate) and the file is, byte for byte,
    the UTF-8 encoding of the text: one to four bytes for a character, six
    bits to a continuation byte; so an overlong form, an encoded surrogate, a
    stray continuation byte or a cut sequence decodes to nothing, and every
    text of scalar values is what its encoding decodes to.  In particular a
    file of ASCII bytes decodes to the characters with the same numbers, and
    what a file decodes to has no more characters than the file has
    bytes. *)
Theorem decode_is_strict_utf8 (file : list Byte.byte) :
  (Forall (fun b => (Byte.to_N b < 128)%N) file ->
     decode file = Some (map Byte.to_N file))
  /\ (forall text,
       decode file = Some text ->
       Forall scalar_value text /\ (length text <= length file)%nat)
  /\ (forall text,
       decode file = Some text
       <-> Forall scalar_value text /\ map Byte.to_N file = encode_utf8 text)
  /\ (forall text,
       Forall scalar_value text -> decode (utf8_bytes text) = Some text).
Proof.
  split_and!.
  - intros Hfile. apply decode_utf8_ascii. by apply Forall_fmap.
  - intros text Hdec. split; [by apply decode_utf8_scalar in Hdec|].
    by apply decode_length.
  - apply decode_spec.
  - intros text Htext. apply decode_spec. split; [done|].
    by apply utf8_bytes_spec.
Qed.

(** * The counts of the export *)

Lemma count_split {A} (P Q : A -> Prop) `{forall x, Decision (P x)}
    `{forall x, Decision (Q x)} (l : list A) :
  (forall x, P x -> Q x -> False) ->
  length (filter (fun x => P x \/ Q x) l)
  = (length (filter P l) + length (filter Q l))%nat.
Proof.
  intros Hdisj. induction l as [|x l IH]; [done|].
  rewrite !filter_cons.
  destruct (decide (P x)) as [HP|HP], (decide (Q x)) as [HQ|HQ];
    [by destruct (Hdisj x)|..];
    [rewrite decide_True by auto|rewrite decide_True by auto
    |rewrite decide_False by tauto]; simpl; lia.
Qed.

Lemma counts_add_up (d : dict Z Cliente) (facturas : dict Z Factura) :
  NoDup (PyDict.keys d) ->
  foldr Z.add 0 (map (fun kc => invoice_count facturas kc.1) d)
  = Z.of_nat (length (filter (fun f => Factura_client_id f ∈ PyDict.keys d)
                        (PyDict.values facturas))).
Proof.
  induction d as [|[k c] d IH]; intros Hnd; simpl.
  - induction (PyDict.values facturas) as [|f fs IHf]; [done|].
    rewrite filter_cons, decide_False; [done|]. apply not_elem_of_nil.
  - apply NoDup_cons in Hnd as [Hk Hnd]. rewrite IH by done.
    unfold invoice_count. rewrite <- Nat2Z.inj_add. f_equal.
    rewrite <- count_split.
    + f_equal. apply list_filter_iff. intros f. by rewrite elem_of_cons.
    + intros f <- Hin. done.
Qed.

Section export_counts.
Context `{Libraries}.

(** X17. The counts of the export count every invoice of a stored client
    once: in a state of a running process the count cells of the export rows
    add up to the number of invoices whose [client_id] is the id of a stored
    client, so an invoice of a client that does not exist appears in no
    row. *)
Theorem export_counts_each_invoice_once (st : State) :
  reachable st ->
  foldr Z.add 0 (map row_count (export_rows (db_clientes st) (db_facturas st)))
  = Z.of_nat
      (length (filter (fun f => PyDict.mem (Factura_client_id f) (db_clientes st)
                                = true)
                 (PyDict.values (db_facturas st)))).
Proof.
  intros Hst. apply reachable_well_formed in Hst as (_ & [_ Hnd] & _).
  rewrite export_rows_map, map_map.
  change (fun kc => row_count (item_row (db_facturas st) kc))
    with (fun kc : Z * Cliente => invoice_count (db_facturas st) kc.1).
  rewrite counts_add_up by done. do 2 f_equal.
  apply list_filter_iff. intros f.
  rewrite mem_true. split.
  - intros Hin. destruct (PyDict.get _ _) eqn:Hg; [eauto|].
    by apply get_None_keys in Hg.
  - intros [c Hg].
    destruct (decide (Factura_client_id f ∈ PyDict.keys (db_clientes st)))
      as [|Hn]; [done|].
    apply get_None_keys in Hn. congruence.
Qed.

End export_counts.

(** * Columns are found by name *)

Lemma cell_of_elem (fieldnames row : list pystr) (name cell : pystr) :
  cell_of fieldnames row name = Some cell -> name ∈ fieldnames.
Proof.
  revert row. induction fieldnames as [|n fn IH]; intros [|c row]; simpl;
    try done.
  destruct (decide (n = name)) as [->|Hne]; [intros _; apply list_elem_of_here|].
  intros Hc. apply list_elem_of_further. by apply (IH row).
Qed.

Lemma get_zipped (fieldnames row : list pystr) (d : row_dict) (name : pystr) :
  NoDup fieldnames ->
  PyDict.get
    (fold_left (fun d '(k, v) => PyDict.set d (Some k) (CStr v))
       (zip fieldnames row) d) (Some name)
  = match cell_of fieldnames row name with
    | Some c => Some (CStr c)
    | None => PyDict.get d (Some name)
    end.
Proof.
  intros Hnd. revert row d.
  induction Hnd as [|n fn Hn Hnd IH]; intros [|c row] d; simpl; try done.
  rewrite IH. destruct (decide (n = name)) as [->|Hne].
  - destruct (cell_of fn row name) as [c'|] eqn:Hc.
    + by apply cell_of_elem in Hc.
    + by rewrite get_set_eq.
  - rewrite get_set_ne by congruence. done.
Qed.

Lemma get_rest_values (names : list pystr) (d : row_dict) (name : pystr) :
  PyDict.get (fold_left (fun d key => PyDict.set d (Some key) CNone) names d)
    (Some name)
  = if decide (name ∈ names) then Some CNone else PyDict.get d (Some name).
Proof.
  revert d. induction names as [|n names IH]; intros d.
  - simpl fold_left. case_decide as Hin; [by apply elem_of_nil in Hin|done].
  - simpl fold_left. rewrite IH.
    destruct (decide (name ∈ n :: names)) as [Hc|Hc];
      rewrite elem_of_cons in Hc.
    + destruct (decide (name ∈ names)) as [Hin|Hin]; [done|].
      destruct Hc as [->|?]; [|done]. by rewrite get_set_eq.
    + rewrite decide_False by tauto. rewrite get_set_ne; [done|].
      intros [= ->]. tauto.
Qed.

Lemma cell_of_drop (fieldnames row : list pystr) (name cell : pystr) :
  NoDup fieldnames ->
  cell_of fieldnames row name = Some cell ->
  name ∉ drop (length row) fieldnames.
Proof.
  intros Hnd. revert row.
  induction Hnd as [|n fn Hn Hnd IH]; intros [|c row]; simpl; try done.
  destruct (decide (n = name)) as [->|Hne].
  - intros _ Hin. by apply subseteq_drop in Hin.
  - apply IH.
Qed.

Section columns.
Context `{Libraries}.

(** Under a header that repeats no name, the field read under a name is
    the cell in the column of that name. *)
Lemma str_field_make_row (fieldnames row : list pystr) (name : pystr) :
  NoDup fieldnames ->
  (length row <= length fieldnames)%nat ->
  str_field (make_row fieldnames row) name = cell_of fieldnames row name.
Proof.
  intros Hnd Hlen. unfold str_field, make_row.
  rewrite decide_False by lia.
  destruct (decide (length row < length fieldnames)%nat).
  - rewrite get_rest_values, get_zipped by done.
    destruct (cell_of fieldnames row name) as [c|] eqn:Hc.
    + rewrite decide_False; [done|]. by eapply cell_of_drop.
    + by destruct (decide _).
  - rewrite get_zipped by done.
    by destruct (cell_of fieldnames row name).
Qed.

(** A row that is not longer than the header has names for keys only. *)
Lemma make_row_string_keys (fieldnames row : list pystr) :
  (length row <= length fieldnames)%nat ->
  PyDict.mem None (make_row fieldnames row) = false.
Proof.
  intros Hlen.
  apply mem_false. unfold make_row. rewrite decide_False by lia.
  destruct (decide (length row < length fieldnames)%nat).
  - apply get_None_keys. intros Hk.
    apply (keys_fold_set (fun key : pystr => Some key) (fun _ => CNone))
      in Hk as [Hk|Hk]; [| |done].
    + apply (keys_fold_set (fun kv : pystr * pystr => Some kv.1)
               (fun kv => CStr kv.2)) in Hk as [Hk|Hk]; [| |by intros ? [??]].
      * by apply elem_of_nil in Hk.
      * by apply list_elem_of_fmap in Hk as (? & ? & _).
    + by apply list_elem_of_fmap in Hk as (? & ? & _).
  - apply get_None_keys. intros Hk.
    apply (keys_fold_set (fun kv : pystr * pystr => Some kv.1)
             (fun kv => CStr kv.2)) in Hk as [Hk|Hk]; [| |by intros ? [??]].
    + by apply elem_of_nil in Hk.
    + by apply list_elem_of_fmap in Hk as (? & ? & _).
Qed.

(** The client of a record is the client the model makes of its row. *)
Lemma Cliente_of_row_client (fieldnames row : list pystr) (c : Cliente) :
  NoDup fieldnames ->
  (length row <= length fieldnames)%nat ->
  row_client fieldnames row = Some c ->
  Cliente_of_row (make_row fieldnames row) = Return c.
Proof.
  intros Hnd Hlen Hc. unfold row_client in Hc.
  apply Cliente_of_row_Return. unfold int_field.
  rewrite !str_field_make_row by done.
  rewrite make_row_string_keys by done.
  destruct (cell_of fieldnames row (py "id") ≫= int_of_str) as [i|] eqn:Hi;
    [|done].
  destruct (cell_of fieldnames row (py "documento")) as [d|]; [|done].
  destruct (cell_of fieldnames row (py "first_name")) as [f|]; [|done].
  destruct (cell_of fieldnames row (py "last_name")) as [l|]; [|done].
  destruct (cell_of fieldnames row (py "email")) as [e|]; [|done].
  destruct (cell_of fieldnames row (py "password")) as [p|]; [|done].
  by simplify_eq/=.
Qed.

(** X18. The columns of an imported file are matched by name, not by
    position.  Under a header that repeats no name, for a row that is not
    longer than the header, the field the model reads under a name is the
    cell of the row in the column of that name, and is missing when there is
    no such column or the row ends before it; so a row whose cells in the
    six columns of the model are there, the id an integer, makes that client
    whatever the order of the columns and whatever other columns there
    are. *)
Theorem columns_are_matched_by_name (fieldnames row : list pystr) :
  NoDup fieldnames ->
  (length row <= length fieldnames)%nat ->
  (forall name,
     str_field (make_row fieldnames row) name = cell_of fieldnames row name)
  /\ (forall i n d f l e p,
       cell_of fieldnames row (py "id") = Some i ->
       int_of_str i = Some n ->
       cell_of fieldnames row (py "documento") = Some d ->
       cell_of fieldnames row (py "first_name") = Some f ->
       cell_of fieldnames row (py "last_name") = Some l ->
       cell_of fieldnames row (py "email") = Some e ->
       cell_of fieldnames row (py "password") = Some p ->
       Cliente_of_row (make_row fieldnames row) = Return (mkCliente n d f l e p)).
Proof.
  intros Hnd Hlen. split; [intros name; by apply str_field_make_row|].
  intros i n d f l e p Hi Hn Hd Hf Hl He Hp.
  apply Cliente_of_row_Return. simpl. unfold int_field.
  rewrite !str_field_make_row, Hi, Hd, Hf, Hl, He, Hp by done. simpl.
  split_and!; try done. by apply make_row_string_keys.
Qed.

End columns.

(** * The CSV reader on written records *)

Lemma plain_step (c : codepoint) (fs : list pystr) (piece : pystr)
    (st : parser_state) :
  (st = START_FIELD /\ piece = []) \/ st = IN_FIELD ->
  plain c = true ->
  Z.of_nat (length piece) < field_limit ->
  parse_process_char (Some c) (mkReader fs piece st)
  = Some (mkReader fs (piece ++ [c]) IN_FIELD).
Proof.
  intros Hst Hc Hlen. apply plain_inv in Hc as (Hl & Hq & Hd).
  pose proof (linebreak_crnl c Hl) as Hcrnl.
  unfold parse_process_char, start_field.
  destruct Hst as [[-> ->]| ->]; simpl; rewrite Hcrnl;
    rewrite ?(bool_decide_eq_false_2 (c = quotechar)) by done;
    rewrite (bool_decide_eq_false_2 (c = delimiter)) by done;
    by rewrite ?parse_add_char_Some by (simpl; lia).
Qed.

(** A plain cell is read character by character. *)
Lemma parse_plain_cell (p rest : pystr) (fs : list pystr) (piece : pystr)
    (st : parser_state) :
  (st = START_FIELD /\ piece = []) \/ st = IN_FIELD ->
  plain_text p ->
  Z.of_nat (length piece + length p) <= field_limit ->
  parse_line (p ++ rest) (mkReader fs piece st)
  = parse_line rest
      (mkReader fs (piece ++ p) (match p with [] => st | _ => IN_FIELD end)).
Proof.
  intros Hst Hp. revert piece st Hst.
  induction Hp as [|c p Hc Hp IH]; intros piece st Hst Hlen.
  - by rewrite app_nil_r.
  - simpl in Hlen.
    change (parse_line ((c :: p) ++ rest) ?r)
      with (parse_process_char (Some c) r ≫= parse_line (p ++ rest)).
    rewrite plain_step by (done || lia). simpl.
    rewrite IH; [|by right|rewrite length_app; simpl; lia].
    rewrite <- app_assoc. simpl. by destruct p.
Qed.

Lemma quoted_step_quote (fs : list pystr) (piece : pystr) :
  parse_process_char (Some quotechar) (mkReader fs piece IN_QUOTED_FIELD)
  = Some (mkReader fs piece QUOTE_IN_QUOTED_FIELD).
Proof. done. Qed.

Lemma quoted_step_doubled (fs : list pystr) (piece : pystr) :
  Z.of_nat (length piece) < field_limit ->
  parse_process_char (Some quotechar) (mkReader fs piece QUOTE_IN_QUOTED_FIELD)
  = Some (mkReader fs (piece ++ [quotechar]) IN_QUOTED_FIELD).
Proof.
  intros Hlen. unfold parse_process_char. simpl.
  by rewrite parse_add_char_Some by (simpl; lia).
Qed.

Lemma quoted_step_char (c : codepoint) (fs : list pystr) (piece : pystr) :
  c <> quotechar ->
  Z.of_nat (length piece) < field_limit ->
  parse_process_char (Some c) (mkReader fs piece IN_QUOTED_FIELD)
  = Some (mkReader fs (piece ++ [c]) IN_QUOTED_FIELD).
Proof.
  intros Hc Hlen. unfold parse_process_char. simpl.
  rewrite bool_decide_eq_false_2 by done.
  by rewrite parse_add_char_Some by (simpl; lia).
Qed.

(** Inside quotes every character is taken as it is, and two quotes are
    one. *)
Lemma parse_quoted_body (s rest : pystr) (fs : list pystr) (piece : pystr) :
  Z.of_nat (length piece + length s) <= field_limit ->
  parse_line (double_quotes s ++ rest) (mkReader fs piece IN_QUOTED_FIELD)
  = parse_line rest (mkReader fs (piece ++ s) IN_QUOTED_FIELD).
Proof.
  revert piece. induction s as [|c s IH]; intros piece Hlen.
  - by rewrite app_nil_r.
  - simpl in Hlen. cbn [double_quotes flat_map].
    destruct (decide (c = quotechar)) as [->|Hc].
    + rewrite bool_decide_eq_true_2 by done.
      change (parse_line (([quotechar; quotechar] ++ ?l) ++ rest) ?r)
        with (parse_process_char (Some quotechar) r ≫= fun r' =>
              parse_process_char (Some quotechar) r' ≫= parse_line (l ++ rest)).
      rewrite quoted_step_quote. cbn [mbind option_bind].
      rewrite quoted_step_doubled by lia. cbn [mbind option_bind].
      fold (double_quotes s).
      rewrite IH by (rewrite length_app; simpl; lia).
      by rewrite <- app_assoc.
    + rewrite bool_decide_eq_false_2 by done.
      change (parse_line (([c] ++ ?l) ++ rest) ?r)
        with (parse_process_char (Some c) r ≫= parse_line (l ++ rest)).
      rewrite quoted_step_char by (done || lia). cbn [mbind option_bind].
      fold (double_quotes s).
      rewrite IH by (rewrite length_app; simpl; lia).
      by rewrite <- app_assoc.
Qed.

Lemma parse_quoted_cell (s rest : pystr) (fs : list pystr) :
  Z.of_nat (length s) <= field_limit ->
  parse_line (csv_quoted s ++ rest) (mkReader fs [] START_FIELD)
  = parse_line rest (mkReader fs s QUOTE_IN_QUOTED_FIELD).
Proof.
  intros Hlen. unfold csv_quoted.
  change (parse_line ((quotechar :: ?l) ++ rest) ?r)
    with (parse_process_char (Some quotechar) r ≫= parse_line (l ++ rest)).
  assert (parse_process_char (Some quotechar) (mkReader fs [] START_FIELD)
          = Some (mkReader fs [] IN_QUOTED_FIELD)) as -> by done.
  cbn [mbind option_bind].
  rewrite <- app_assoc. rewrite parse_quoted_body by (simpl; lia).
  change (parse_line ([quotechar] ++ rest) ?r)
    with (parse_process_char (Some quotechar) r ≫= parse_line rest).
  by rewrite quoted_step_quote.
Qed.

(** A written cell, whatever follows it: the reader holds the cell, and is
    where a comma or the end of the line closes the field. *)
Lemma parse_cell (cell written rest : pystr) (fs : list pystr) :
  csv_cell cell written ->
  Z.of_nat (length cell) <= field_limit ->
  exists st,
    parse_line (written ++ rest) (mkReader fs [] START_FIELD)
    = parse_line rest (mkReader fs cell st)
    /\ ((st = START_FIELD /\ cell = []) \/ st = IN_FIELD
        \/ st = QUOTE_IN_QUOTED_FIELD).
Proof.
  intros [p Hp|s] Hlen.
  - rewrite parse_plain_cell; [|by left|done|simpl; lia]. simpl.
    eexists. split; [done|]. destruct p; auto.
  - rewrite parse_quoted_cell by done. eauto.
Qed.

Lemma field_closed_by_end (fs : list pystr) (piece : pystr) (st : parser_state) :
  (st = START_FIELD /\ piece = []) \/ st = IN_FIELD
  \/ st = QUOTE_IN_QUOTED_FIELD ->
  parse_line [] (mkReader fs piece st)
  = Some (mkReader (fs ++ [piece]) [] START_RECORD).
Proof. by intros [[-> ->]|[->| ->]]. Qed.

Lemma field_closed_by_comma (rest : pystr) (fs : list pystr) (piece : pystr)
    (st : parser_state) :
  (st = START_FIELD /\ piece = []) \/ st = IN_FIELD
  \/ st = QUOTE_IN_QUOTED_FIELD ->
  parse_line (delimiter :: rest) (mkReader fs piece st)
  = parse_line rest (mkReader (fs ++ [piece]) [] START_FIELD).
Proof. by intros [[-> ->]|[->| ->]]. Qed.

Lemma parse_cells (cells written : list pystr) (fs : list pystr) :
  Forall2 csv_cell cells written ->
  cells <> [] ->
  Forall (fun cell => Z.of_nat (length cell) <= field_limit) cells ->
  parse_line (join (py ",") written) (mkReader fs [] START_FIELD)
  = Some (mkReader (fs ++ cells) [] START_RECORD).
Proof.
  intros Hcells. revert fs.
  induction Hcells as [|cell w cells ws Hcell Hcells IH]; intros fs Hne Hlen;
    [done|].
  apply Forall_cons in Hlen as [Hlen Hlens].
  destruct Hcells as [|cell' w' cells' ws' Hcell' Hcells'].
  - simpl join.
    destruct (parse_cell cell w [] fs Hcell Hlen) as (st & Hrun & Hst).
    rewrite app_nil_r in Hrun. rewrite Hrun. by apply field_closed_by_end.
  - change (join (py ",") (w :: w' :: ws'))
      with (w ++ delimiter :: join (py ",") (w' :: ws')).
    destruct (parse_cell cell w (delimiter :: join (py ",") (w' :: ws')) fs
                Hcell Hlen) as (st & Hrun & Hst).
    rewrite Hrun, field_closed_by_comma by done.
    rewrite IH by done. by rewrite <- app_assoc.
Qed.

Lemma double_quotes_one_line (s : pystr) : one_line s -> one_line (double_quotes s).
Proof.
  induction 1 as [|c s Hc _ IH]; [constructor|].
  cbn [double_quotes flat_map]. apply Forall_app. split; [|done].
  destruct (bool_decide (c = quotechar)) eqn:Hq; [|by constructor].
  apply bool_decide_eq_true in Hq as ->. by repeat constructor.
Qed.

Lemma csv_cell_one_line (cell written : pystr) :
  csv_cell cell written -> one_line cell -> one_line written.
Proof.
  intros [p Hp|s] Hcell; [done|].
  unfold csv_quoted. constructor; [done|]. apply Forall_app.
  split; [by apply double_quotes_one_line|by repeat constructor].
Qed.

Lemma join_one_line (parts : list pystr) :
  Forall one_line parts -> one_line (join (py ",") parts).
Proof.
  induction 1 as [|p parts Hp Hparts IH]; [constructor|].
  destruct parts as [|q parts]; [done|].
  change (join (py ",") (p :: q :: parts))
    with (p ++ delimiter :: join (py ",") (q :: parts)).
  apply Forall_app. split; [done|]. by constructor.
Qed.

Lemma csv_record_one_line (cells : list pystr) (line : pystr) :
  csv_record cells line -> Forall one_line cells -> one_line line.
Proof.
  intros (_ & written & Hcells & ->) Hone. apply join_one_line.
  induction Hcells as [|cell w cells ws Hcell _ IH]; [constructor|].
  apply Forall_cons in Hone as [Hc Hone].
  constructor; [by eapply csv_cell_one_line|by apply IH].
Qed.

Lemma csv_record_cells (cells : list pystr) (line : pystr) :
  csv_record cells line -> cells <> [].
Proof.
  intros (Hne & written & Hcells & ->) ->.
  by apply Forall2_nil_inv_l in Hcells as ->.
Qed.

(** A written record is read back as its cells. *)
Lemma parse_record (cells : list pystr) (line : pystr) :
  csv_record cells line ->
  Forall importable cells ->
  parse_line line parse_reset = Some (mkReader cells [] START_RECORD).
Proof.
  intros Hrec Hcells.
  assert (one_line line) as Hline.
  { eapply csv_record_one_line; [done|].
    eapply Forall_impl; [exact Hcells|]. by intros ? [? _]. }
  pose proof (csv_record_cells _ _ Hrec) as Hne.
  destruct Hrec as (Hl & written & Hwritten & ->).
  transitivity (parse_line (join (py ",") written) (mkReader [] [] START_FIELD)).
  - destruct (join (py ",") written) as [|c s]; [done|].
    apply Forall_cons in Hline as [Hc _].
    pose proof (linebreak_crnl c Hc) as Hcrnl.
    change (parse_line (c :: s) ?r)
      with (parse_process_char (Some c) r ≫= parse_line s).
    f_equal. unfold parse_process_char. simpl. by rewrite Hcrnl.
  - apply (parse_cells cells written []); [done..|].
    eapply Forall_impl; [exact Hcells|]. by intros ? [_ ?].
Qed.

Lemma splitlines_from_crlf (h line rest : pystr) :
  one_line h ->
  splitlines_from line (h ++ CR :: LF :: rest) = (line ++ h) :: splitlines rest.
Proof.
  intros Hh. revert line. induction Hh as [|c h Hc _ IH]; intros line; simpl.
  - by rewrite app_nil_r.
  - by rewrite Hc, IH, <- app_assoc.
Qed.

Lemma splitlines_from_lf (h line rest : pystr) :
  one_line h ->
  splitlines_from line (h ++ LF :: rest) = (line ++ h) :: splitlines rest.
Proof.
  intros Hh. apply splitlines_from_line, forallb_forall.
  intros c Hc. apply list_elem_of_In in Hc.
  unfold one_line in Hh. rewrite Forall_forall in Hh. by rewrite (Hh c Hc).
Qed.

(** The lines of a written table are its records. *)
Lemma csv_text_lines (rows : list (list pystr)) (text : pystr) :
  csv_text rows text ->
  Forall (Forall importable) rows ->
  Forall2 csv_record rows (splitlines text).
Proof.
  induction 1 as [|cells line Hrec|cells line rows text Hrec _ IH
                  |cells line rows text Hrec _ IH]; intros Hrows.
  - constructor.
  - apply Forall_cons in Hrows as [Hcells _].
    assert (one_line line) as Hline.
    { eapply csv_record_one_line; [done|].
      eapply Forall_impl; [exact Hcells|]. by intros ? [? _]. }
    unfold splitlines. rewrite splitlines_from_one_line by done. simpl.
    destruct line as [|c s]; [by destruct Hrec|].
    constructor; [done|constructor].
  - apply Forall_cons in Hrows as [Hcells Hrows].
    assert (one_line line) as Hline.
    { eapply csv_record_one_line; [done|].
      eapply Forall_impl; [exact Hcells|]. by intros ? [? _]. }
    unfold splitlines at 1. rewrite splitlines_from_lf by done.
    constructor; [done|by apply IH].
  - apply Forall_cons in Hrows as [Hcells Hrows].
    assert (one_line line) as Hline.
    { eapply csv_record_one_line; [done|].
      eapply Forall_impl; [exact Hcells|]. by intros ? [? _]. }
    unfold splitlines at 1. rewrite splitlines_from_crlf by done.
    constructor; [done|by apply IH].
Qed.

Lemma csv_reader_records (rows : list (list pystr)) (lines : list pystr) :
  Forall2 csv_record rows lines ->
  Forall (Forall importable) rows ->
  csv_reader lines = rows_then rows Stop.
Proof.
  unfold csv_reader.
  induction 1 as [|cells line rows lines Hrec _ IH]; intros Hrows; [done|].
  apply Forall_cons in Hrows as [Hcells Hrows].
  simpl. rewrite (parse_record cells line Hrec Hcells). simpl.
  by rewrite IH.
Qed.

Lemma dict_rows_records (fieldnames : list pystr) (rows : list (list pystr)) :
  Forall (fun row => row <> []) rows ->
  dict_rows fieldnames (rows_then rows Stop)
  = rows_then (map (make_row fieldnames) rows) Stop.
Proof.
  induction 1 as [|row rows Hrow _ IH]; [done|].
  simpl. rewrite IH. by destruct row.
Qed.

Lemma iter_items_rows_then {A} (items : list A) :
  iter_items (rows_then items Stop) = items.
Proof. induction items as [|a items IH]; [done|]. simpl. by rewrite IH. Qed.

Lemma iter_end_rows_then {A} (items : list A) :
  iter_end (rows_then items Stop) = None.
Proof. by induction items. Qed.

(** A written table, header first, is read by [DictReader] as one
    dictionary per record after the header. *)
Lemma DictReader_csv_text (fieldnames : list pystr) (rows : list (list pystr))
    (text : pystr) :
  csv_text (fieldnames :: rows) text ->
  Forall (Forall importable) (fieldnames :: rows) ->
  DictReader (splitlines text) = rows_then (map (make_row fieldnames) rows) Stop.
Proof.
  intros Htext Hcells. pose proof (csv_text_lines _ _ Htext Hcells) as Hlines.
  unfold DictReader. rewrite (csv_reader_records _ _ Hlines Hcells). simpl.
  apply dict_rows_records.
  apply Forall2_cons_inv_l in Hlines as (line & lines & _ & Hlines & _).
  clear -Hlines. induction Hlines as [|row l rows ls Hrec _ IH]; constructor;
    [by eapply csv_record_cells|done].
Qed.

Section import_csv.
Context `{Libraries}.


End import_csv.

(** * The properties on concrete requests *)

Lemma busy_state_reachable : @reachable sample_libraries busy_state.
Proof.
  apply (@reachable_step sample_libraries _ (POST_productos widget)).
  apply (@reachable_step sample_libraries _ (POST_clientes bob)).
  apply (@reachable_step sample_libraries _ (POST_facturas acme)).
  apply (@reachable_step sample_libraries _ (POST_clientes ana)).
  apply reachable_start.
Qed.

Lemma carol_state_reachable : @reachable sample_libraries carol_state.
Proof.
  assert (carol_state
          = @after sample_libraries (POST_register (py "salt") carol) empty_state)
    as -> by (by vm_compute).
  apply reachable_step, reachable_start.
Qed.

(** A third client is created in a state that holds two. *)
Lemma create_fresh_id_stores_example :
  exists st',
    create_cliente cleo busy_state = (Return cleo, st')
    /\ db_clientes st' = [(1, ana); (2, bob); (3, cleo)]
    /\ read_cliente 3 st' = (Return cleo, st').
Proof.
  destruct (proj1 (create_fresh_id_stores busy_state) cleo)
    as (st' & Hrun & Hdb & Hread & _); [reflexivity|].
  exists st'. split_and!; [exact Hrun| |exact Hread].
  rewrite Hdb. reflexivity.
Defined.

Lemma listing_agrees_with_get_by_id_example :
  bob ∈ PyDict.values (db_clientes busy_state)
  <-> read_cliente 2 busy_state = (Return bob, busy_state).
Proof.
  apply (proj1 (@listing_agrees_with_get_by_id sample_libraries busy_state
                  busy_state_reachable) bob).
Defined.

Lemma stores_only_grow_example :
  PyDict.get
    (db_facturas (@after sample_libraries
                    (POST_facturas (mkFactura 10 2 (py "Other") (py "N2") (py "C2")))
                    busy_state)) 10
  = Some acme.
Proof.
  apply (@stores_only_grow sample_libraries). reflexivity.
Defined.

Lemma http_errors_change_nothing_example :
  @after sample_libraries (POST_clientes ana) busy_state = busy_state.
Proof.
  eapply (proj1 (@http_errors_change_nothing sample_libraries _ _)).
  reflexivity.
Defined.

Lemma user_ids_are_sequential_example :
  users_sequential (db_users carol_state)
  /\ NoDup (PyDict.keys (db_users carol_state)).
Proof.
  destruct (@user_ids_are_sequential sample_libraries carol_state
              carol_state_reachable) as (Hseq & Hnd & _).
  by split.
Defined.

Lemma import_keeps_rows_before_failure_example :
  @upload_clients_csv sample_libraries (ascii_bytes broken_csv) busy_state
  = (Raise (ValidationError [py "id"]),
     set_db_clientes (upsert_all [eva] (db_clientes busy_state)) busy_state).
Proof.
  apply (proj1 (@import_keeps_rows_before_failure sample_libraries
                  (ascii_bytes broken_csv) broken_csv
                  [make_row Cliente_fields
                     [py "1"; py "Z9"; py "Eva"; py "Poe"; py "e@x.com"; py "zz"]]
                  [eva] busy_state ltac:(by vm_compute)
                  ltac:(repeat constructor))
           (make_row Cliente_fields
              [py "x"; py "D8"; py "Bad"; py "Row"; py "b@x.com"; py "pw"])
           (Next (make_row Cliente_fields
                    [py "7"; py "D7"; py "Al"; py "Bo"; py "c@x.com"; py "pw"])
              Stop)).
  - by vm_compute.
  - by vm_compute.
Defined.

Lemma import_twice_is_import_once_example :
  let st1 := snd (@upload_clients_csv sample_libraries (ascii_bytes clients_csv)
                    busy_state) in
  @upload_clients_csv sample_libraries (ascii_bytes clients_csv) st1
  = (Return [(py "message", VStr (py "Clientes cargados exitosamente"))], st1).
Proof.
  intros st1.
  apply (@import_twice_is_import_once sample_libraries _ busy_state);
    [apply busy_state_reachable | by vm_compute].
Defined.

Lemma rows_under_the_model_header_example :
  @Cliente_of_row sample_libraries
    (make_row Cliente_fields [py "7"; py "D7"; py "Al"])
  = Raise (ValidationError [py "last_name"; py "email"; py "password"]).
Proof.
  apply (proj2 (proj2 (@rows_under_the_model_header sample_libraries))
           (py "7") [py "D7"; py "Al"]).
  simpl. lia.
Defined.

Lemma splitlines_lines_example :
  splitlines (unlines [py "a,b"; []; py "c"]) = [py "a,b"; []; py "c"].
Proof.
  apply (splitlines_lines []). by repeat constructor.
Defined.

Lemma small_file_never_fails_in_the_reader_example :
  fst (@upload_clients_csv sample_libraries (ascii_bytes broken_csv) busy_state)
  <> Raise CsvError.
Proof.
  apply (@small_file_never_fails_in_the_reader sample_libraries
           (ascii_bytes broken_csv) broken_csv busy_state); by vm_compute.
Defined.

Lemma header_only_file_imports_nothing_example :
  @upload_clients_csv sample_libraries
    (ascii_bytes (py "id,documento,first_name")) busy_state
  = (Return [(py "message", VStr (py "Clientes cargados exitosamente"))],
     busy_state).
Proof.
  apply (@header_only_file_imports_nothing sample_libraries
           (ascii_bytes (py "id,documento,first_name"))
           (py "id,documento,first_name") busy_state);
    [by vm_compute.. | by repeat constructor].
Defined.

Lemma csv_reader_splits_unquoted_lines_example :
  csv_reader [py "a,,b"; []; py "c"]
  = Next [py "a"; []; py "b"] (Next [] (Next [py "c"] Stop)).
Proof.
  apply (csv_reader_splits_unquoted_lines [py "a,,b"; []; py "c"]).
  unfold unquoted, one_line. apply (bool_decide_unpack _). by vm_compute.
Defined.

Lemma export_reads_back_as_csv_example :
  csv_reader (splitlines (exported_text busy_state))
  = Next headers
      (Next [py "1"; py "D1"; py "Ana Lee"; py "1"]
         (Next [py "2"; py "D2"; py "Bob Roe"; py "0"] Stop)).
Proof.
  apply (export_reads_back_as_csv busy_state).
  - repeat constructor.
  - by vm_compute.
Defined.

(** The six bytes 5A C3 AB E2 82 AC are Z, e with diaeresis and the euro
    sign. *)
Lemma decode_is_strict_utf8_example :
  decode [Byte.x5a; Byte.xc3; Byte.xab; Byte.xe2; Byte.x82; Byte.xac]
  = Some [90; 235; 8364]%N.
Proof.
  apply (proj1 (proj2 (proj2
           (decode_is_strict_utf8
              [Byte.x5a; Byte.xc3; Byte.xab; Byte.xe2; Byte.x82; Byte.xac])))
           [90; 235; 8364]%N).
  split; [|reflexivity].
  unfold scalar_value. apply (bool_decide_unpack _). by vm_compute.
Defined.

Lemma export_counts_each_invoice_once_example :
  foldr Z.add 0
    (map row_count (export_rows (db_clientes busy_state) (db_facturas busy_state)))
  = 1.
Proof.
  apply (@export_counts_each_invoice_once sample_libraries busy_state
           busy_state_reachable).
Defined.

Lemma columns_are_matched_by_name_example :
  @Cliente_of_row sample_libraries (make_row shuffled_header shuffled_row)
  = Return cleo.
Proof.
  eapply (proj2 (@columns_are_matched_by_name sample_libraries shuffled_header
                   shuffled_row ltac:(by apply (bool_decide_unpack _); vm_compute)
                   ltac:(by vm_compute)));
    reflexivity.
Defined.


(** C4 on a concrete request: carol is registered and her password verifies,
    yet the request for a token is answered with an [AttributeError] when it
    names a [tokenUrl] in its query string, and refused as invalid when it
    does not. *)
Lemma token_route_fails_on_good_credentials :
  PyDict.get (db_users carol_state) (py "carol@x.com")
  = Some (mkUserDict 1 (py "carol@x.com") (py "salt$secret"))
  /\ @bcrypt_verify sample_libraries (py "secret") (py "salt$secret")
     = Return true
  /\ @token_route sample_libraries
       (Some (mkTokenQuery (py "token") None None true))
       (mkFormData (py "carol@x.com") (py "secret")) carol_state
     = (Raise AttributeError, carol_state)
  /\ @token_route sample_libraries None
       (mkFormData (py "carol@x.com") (py "secret")) carol_state
     = (Raise RequestValidationError, carol_state).
Proof. split_and!; by vm_compute. Qed.
